(** * Video processing core: admission, validation, parameter resolution,
      enrichment and job bookkeeping

    A shallow embedding of the TypeScript sources
      - [utils/memoryManager.ts]            (class MemoryManager)
      - [services/videoProcessor.ts]        (class VideoProcessor)
      - [services/geminiVideoAnalyzer.ts]   (class GeminiVideoAnalyzer)
      - [services/videoProcessingService.ts](class VideoProcessingService)
      - [types/video-processing.ts]         (the record types)

    Conventions of the embedding.
      - A JavaScript [number] is an exact rational ([Q]).  Rounding of
        doubles, [NaN] and the infinities are outside the model.
      - An optional field [x?: T] is an [option T]; [undefined] is [None].
      - Strings stay strings: the union types of the sources ('mp4' | ...)
        are not enforced at run time, and the code itself looks qualities
        up in tables with a default for unknown keys.
      - A method that throws returns [inl e]; [try]/[catch] is [try_catch].
      - [this] is passed explicitly, and a method that may assign a field
        returns the new object next to its result.
      - Clock readings, generated identifiers and the answers of the file
        system and of the remote analyzer are arguments. *)

From Stdlib Require Import Ascii QArith Qminmax Qround Lqa ZArith Lia.
From stdpp Require Import gmap strings.

Local Open Scope Q_scope.

(** ** JavaScript numbers and truthiness *)

Module JS.

(** [a > b] on numbers. *)
Definition gt (a b : Q) : bool := negb (Qle_bool a b).

(** [a >= b] on numbers. *)
Definition ge (a b : Q) : bool := Qle_bool b a.

(** [a < b] on numbers. *)
Definition lt (a b : Q) : bool := negb (Qle_bool b a).

(** [Math.floor]. *)
Definition floor (a : Q) : Q := inject_Z (Qfloor a).

(** Truthiness of an optional number: [undefined] and [0] are falsy. *)
Definition truthy (a : option Q) : bool :=
  match a with
  | Some x => negb (Qeq_bool x 0)
  | None => false
  end.

(** [a || b] where [a] is an optional number. *)
Definition or (a : option Q) (b : Q) : Q :=
  match a with
  | Some x => if Qeq_bool x 0 then b else x
  | None => b
  end.

(** [a ?? b]: nullish coalescing, which the sources never use. *)
Definition nullish (a : option Q) (b : Q) : Q :=
  match a with
  | Some x => x
  | None => b
  end.

(** [a && a > bound] as a condition, for an optional number [a]. *)
Definition present_and_gt (a : option Q) (bound : Q) : bool :=
  match a with
  | Some x => negb (Qeq_bool x 0) && gt x bound
  | None => false
  end.

(** Truthiness of an optional string: [undefined] and [''] are falsy. *)
Definition truthy_str (a : option string) : bool :=
  match a with
  | Some s => negb (String.eqb s "")
  | None => false
  end.

(** [a || b] where [a] is an optional string. *)
Definition or_str (a : option string) (b : string) : string :=
  match a with
  | Some s => if String.eqb s "" then b else s
  | None => b
  end.

(** [xs.includes(x)] on an array of strings. *)
Definition includes (xs : list string) (x : string) : bool :=
  existsb (String.eqb x) xs.

(** [s.includes(sub)] on strings. *)
Fixpoint str_includes (s sub : string) : bool :=
  String.prefix sub s
  || match s with
     | EmptyString => false
     | String _ rest => str_includes rest sub
     end.

(** Reading a property of an object literal given as its entries in
    source order, spread entries included: a later entry for a key
    overrides an earlier one. *)
Fixpoint prop {V : Type} (key : string) (entries : list (string * V)) : option V :=
  match entries with
  | [] => None
  | (k, v) :: rest =>
      match prop key rest with
      | Some later => Some later
      | None => if String.eqb k key then Some v else None
      end
  end.

(** A byte count: a non-negative integer up to [Number.MAX_SAFE_INTEGER]
    (2^53 - 1).  Doubles hold every such value, and a sum or difference
    of two of them that stays in the range is computed without rounding,
    so on byte counts the exact [+] and [-] of the embedding are the
    code's [+=] and [-=]. *)
Definition byteCount (x : Q) : Prop :=
  exists z : Z, x == inject_Z z /\ (0 <= z <= 2 ^ 53 - 1)%Z.

(** The property names that every object literal inherits from
    [Object.prototype].  Read as [table[key]] they yield a function or
    an object, not [undefined]; the tables of the embedding do not hold
    them, and what is stated for arbitrary keys leaves them out. *)
Definition objectPrototypeKeys : list string :=
  ["constructor"; "__defineGetter__"; "__defineSetter__"; "hasOwnProperty";
   "__lookupGetter__"; "__lookupSetter__"; "isPrototypeOf";
   "propertyIsEnumerable"; "toString"; "valueOf"; "__proto__";
   "toLocaleString"]%string.

End JS.

(** ** Errors

    Every [throw new Error(msg)] of the sources is one constructor; the
    comment gives the message.  Nested constructors are messages built
    from [error.message] of a caught error. *)

Inductive Error : Type :=
  | InsufficientMemory (required available : Q)
      (* `Insufficient memory: required ${..}, available ${..}` *)
  | InputFileNotFound (inputPath : string)
      (* `Input file not found: ${inputPath}` *)
  | FileSizeExceeds (fileSize maxFileSize : Q)
      (* `File size exceeds maximum limit: ${fileSize} > ${maxFileSize}` *)
  | UnsupportedVideoFormat (format : string)
      (* `Unsupported video format: ${format}` *)
  | InvalidOrCorrupted
      (* 'Invalid or corrupted video file' *)
  | FailedToGetFileSize (cause : string)
      (* `Failed to get file size: ${error.message}` *)
  | FailedToExtractMetadata (cause : Error)
      (* `Failed to extract video metadata: ${error.message}` *)
  | UnsupportedOutputFormat (format : string)
      (* `Unsupported output format: ${options.outputFormat}` *)
  | WidthExceeds
      (* 'Output width cannot exceed 2x input width' *)
  | HeightExceeds
      (* 'Output height cannot exceed 2x input height' *)
  | BitrateExceeds
      (* 'Bitrate exceeds maximum allowed value' *)
  | FrameRateExceeds
      (* 'Frame rate exceeds maximum allowed value' *)
  | FetchRejected (cause : string)
      (* whatever fetch() rejects with: network failure, abort, timeout *)
  | GeminiApiError (status : Z) (statusText : string)
      (* `Gemini API error: ${response.status} ${response.statusText}` *)
  | ResponseNotJson
      (* the rejection of response.json() *)
  | NoAnalysisResults
      (* 'No analysis results from Gemini API' *)
  | MalformedCandidate
      (* the TypeError of data.candidates[0].content.parts[0].text *)
  | NoJsonFound
      (* 'No JSON found in Gemini response' *)
  | JsonSyntaxError
      (* the SyntaxError of JSON.parse *)
  | VideoAnalysisFailed (cause : Error)
      (* `Video analysis failed: ${error.message}` *)
  | CancelledByUser.
      (* 'Cancelled by user': never thrown, stored by cancelJob *)

(** The errors of [validateProcessingOptions]: the taxonomy value
    [InvalidOptions]. *)
Definition is_InvalidOptions (e : Error) : bool :=
  match e with
  | UnsupportedOutputFormat _ | WidthExceeds | HeightExceeds
  | BitrateExceeds | FrameRateExceeds => true
  | _ => false
  end.

(** The taxonomy value [InsufficientMemory]. *)
Definition is_InsufficientMemory (e : Error) : bool :=
  match e with
  | InsufficientMemory _ _ => true
  | _ => false
  end.

(** ** Computations that may throw *)

Definition result (A : Type) : Type := (Error + A)%type.

Definition ret {A} (a : A) : result A := inr a.
Definition throw {A} (e : Error) : result A := inl e.

Definition bind {A B} (c : result A) (k : A -> result B) : result B :=
  match c with
  | inl e => inl e
  | inr a => k a
  end.

(** [try { c } catch (e) { h e }]. *)
Definition try_catch {A} (c : result A) (h : Error -> result A) : result A :=
  match c with
  | inl e => h e
  | inr a => inr a
  end.

Definition failed {A} (c : result A) : bool :=
  match c with
  | inl _ => true
  | inr _ => false
  end.

Notation "'let!' x ':=' c 'in' k" := (bind c (fun x => k))
  (at level 10, x name, c at level 100, k at level 200).

(** ** The record types of [types/video-processing.ts] *)

Module Types.

Record VideoMetadata : Type := {
  duration : Q;
  width : Q;
  height : Q;
  frameRate : Q;
  bitrate : Q;
  codec : string;
  audioCodec : string;
  fileSize : Q;
  format : string;
  hasAudio : bool;
  colorSpace : string;
  aspectRatio : string
}.

Record VideoProcessingOptions : Type := {
  outputFormat : string;
  quality : string;
  o_width : option Q;
  o_height : option Q;
  o_bitrate : option Q;
  o_frameRate : option Q;
  o_codec : option string;
  o_audioCodec : option string;
  removeAudio : option bool;
  startTime : option Q;
  endTime : option Q
}.

Record ProcessingResult : Type := {
  success : bool;
  processingId : string;
  r_outputPath : option string;
  r_metadata : option VideoMetadata;
  compressionRatio : option Q;
  qualityScore : option Q;
  r_error : option Error
}.

(** The four quality tiers, ordered low < medium < high < ultra. *)
Inductive Tier : Type := Low | Medium | High | Ultra.

Definition tier_name (t : Tier) : string :=
  match t with
  | Low => "low"
  | Medium => "medium"
  | High => "high"
  | Ultra => "ultra"
  end.

Definition tier_rank (t : Tier) : nat :=
  match t with
  | Low => 0
  | Medium => 1
  | High => 2
  | Ultra => 3
  end.

Definition tier_le (a b : Tier) : Prop := (tier_rank a <= tier_rank b)%nat.

(** An object literal with the four tier keys, read as [table[key]].  The
    keys inherited from [Object.prototype] ([JS.objectPrototypeKeys]) are
    not in it. *)
Definition tier_table (lo me hi ul : Q) (key : string) : option Q :=
  if String.eqb key "low" then Some lo
  else if String.eqb key "medium" then Some me
  else if String.eqb key "high" then Some hi
  else if String.eqb key "ultra" then Some ul
  else None.

Record VideoProcessingConfig : Type := {
  memoryLimit : Q;
  maxFileSize : Q;
  tempDirectory : string;
  maxConcurrentJobs : nat;
  enableGPUAcceleration : bool
}.

Record QualityAssessment : Type := {
  videoQuality : Q;
  audioQuality : Q;
  overallScore : Q
}.

Record Recommendations : Type := {
  suggestedFormat : string;
  suggestedQuality : string;
  optimizations : list string
}.

Record SceneMetadata : Type := {
  scenes : Q;
  motionLevel : string;
  complexity : Q
}.

Record GeminiAnalysisResult : Type := {
  contentType : string;
  g_duration : Q;
  qualityAssessment : QualityAssessment;
  recommendations : Recommendations;
  g_metadata : SceneMetadata
}.

Inductive JobStatus : Type := Queued | Processing | Completed | Failed.

(** The string literal each status stands for. *)
Definition status_name (s : JobStatus) : string :=
  match s with
  | Queued => "queued"
  | Processing => "processing"
  | Completed => "completed"
  | Failed => "failed"
  end.

Definition is_processing (s : JobStatus) : bool :=
  match s with
  | Processing => true
  | _ => false
  end.

Record ProcessingJob : Type := {
  job_id : string;                    (* the field [id] *)
  inputPath : string;
  outputPath : string;
  options : VideoProcessingOptions;
  status : JobStatus;
  progress : Q;
  createdAt : Z;
  startedAt : option Z;
  completedAt : option Z;
  error : option Error
}.

Definition is_completed (s : JobStatus) : bool :=
  match s with
  | Completed => true
  | _ => false
  end.

Definition is_failed (s : JobStatus) : bool :=
  match s with
  | Failed => true
  | _ => false
  end.

End Types.
Import Types.

(** ** [utils/memoryManager.ts]: the memory ledger *)

Module MemoryManager.

Record t : Type := {
  memoryLimit : Q;
  currentUsage : Q;
  reservedMemory : gmap string Q
}.

Definition new (memoryLimit : Q) : t :=
  {| memoryLimit := memoryLimit; currentUsage := 0; reservedMemory := ∅ |}.

(** [checkAvailableMemory] assigns no field: the ledger it returns is
    the one it was called on. *)
Definition checkAvailableMemory (this : t) (requiredMemory : Q)
  : result unit * t :=
  let availableMemory := memoryLimit this - currentUsage this in
  if JS.gt requiredMemory availableMemory
  then (throw (InsufficientMemory requiredMemory availableMemory), this)
  else (ret tt, this).

(** [+=] is the exact sum here; it is the code's on byte counts
    ([JS.byteCount]). *)
Definition reserveMemory (this : t) (operationId : string) (amount : Q) : t :=
  {| memoryLimit := memoryLimit this;
     currentUsage := currentUsage this + amount;
     reservedMemory := <[operationId := amount]> (reservedMemory this) |}.

(** [if (amount)] skips an unknown id and a reservation of 0.  [-=] is
    the exact difference here; it is the code's on byte counts. *)
Definition releaseMemory (this : t) (operationId : string) : t :=
  match reservedMemory this !! operationId with
  | Some amount =>
      if Qeq_bool amount 0 then this
      else {| memoryLimit := memoryLimit this;
              currentUsage := currentUsage this - amount;
              reservedMemory := delete operationId (reservedMemory this) |}
  | None => this
  end.

Definition getCurrentUsage (this : t) : Q := currentUsage this.

Definition getUsagePercentage (this : t) : Q :=
  (currentUsage this / memoryLimit this) * 100.

(** [cleanup]: clears the whole map and zeroes the counter. *)
Definition cleanup (this : t) : t :=
  {| memoryLimit := memoryLimit this;
     currentUsage := 0;
     reservedMemory := ∅ |}.

(** Sum of the amounts in a reservation map. *)
Definition totalReserved (m : gmap string Q) : Q :=
  map_fold (fun _ amount acc => amount + acc) 0 m.

Record MemoryStats : Type := {
  total : Q;
  used : Q;
  available : Q;
  usagePercentage : Q;
  reservedOperations : nat
}.

(** [available] is the exact difference here; it is the code's on byte
    counts. *)
Definition getMemoryStats (this : t) : MemoryStats :=
  {| total := memoryLimit this;
     used := currentUsage this;
     available := memoryLimit this - currentUsage this;
     usagePercentage := getUsagePercentage this;
     reservedOperations := size (reservedMemory this) |}.

(** The counter equals the sum of the recorded reservations. *)
Definition balanced (ledger : t) : Prop :=
  currentUsage ledger == totalReserved (reservedMemory ledger).

(** A call of one of the three methods that assign the ledger. *)
Inductive Call : Type :=
  | Reserve (operationId : string) (amount : Q)
  | Release (operationId : string)
  | Cleanup.

Definition call (this : t) (c : Call) : t :=
  match c with
  | Reserve operationId amount => reserveMemory this operationId amount
  | Release operationId => releaseMemory this operationId
  | Cleanup => cleanup this
  end.

(** Every amount reserved by the list is a byte count, and so is the
    counter after each reservation. *)
Fixpoint byte_counts (this : t) (cs : list Call) : Prop :=
  match cs with
  | [] => True
  | c :: rest =>
      match c with
      | Reserve _ amount =>
          JS.byteCount amount /\ JS.byteCount (currentUsage this + amount)
      | _ => True
      end
      /\ byte_counts (call this c) rest
  end.

(** The calls of a list, oldest first. *)
Definition calls (this : t) (cs : list Call) : t := fold_left call cs this.

(** No call of the list reserves under an id that holds a reservation
    at that moment. *)
Fixpoint fresh_ids (this : t) (cs : list Call) : Prop :=
  match cs with
  | [] => True
  | c :: rest =>
      match c with
      | Reserve operationId _ => reservedMemory this !! operationId = None
      | _ => True
      end
      /\ fresh_ids (call this c) rest
  end.

End MemoryManager.

(** ** [utils/fileValidator.ts]: what the file system answers for a path *)

Record FileAnswers : Type := {
  accessible : bool;          (* fs.promises.access resolves *)
  statSize : string + Q;      (* fs.promises.stat: its rejection or stats.size *)
  extname : string;           (* path.extname(filePath).toLowerCase() *)
  headerValid : bool          (* the answer of validateFileHeader *)
}.

Module FileValidator.

Definition supportedVideoExtensions : list string :=
  [".mp4"; ".avi"; ".mov"; ".webm"; ".mkv"]%string.

Definition fileExists (fa : FileAnswers) : bool := accessible fa.

Definition getFileSize (fa : FileAnswers) : result Q :=
  match statSize fa with
  | inl cause => throw (FailedToGetFileSize cause)
  | inr size => ret size
  end.

(** [ext.substring(1)]. *)
Definition getFileFormat (fa : FileAnswers) : string :=
  match extname fa with
  | EmptyString => EmptyString
  | String _ rest => rest
  end.

Definition isVideoFile (fa : FileAnswers) : bool :=
  JS.includes supportedVideoExtensions (extname fa).

Definition validateVideoFile (fa : FileAnswers) : bool :=
  match
    try_catch
      (if negb (isVideoFile fa) then ret false
       else let! size := getFileSize fa in
            if Qeq_bool size 0 then ret false
            else ret (headerValid fa))
      (fun _ => ret false)
  with
  | inr b => b
  | inl _ => false
  end.

(** One hexadecimal digit, lower case as [toString('hex')] writes it. *)
Definition hexDigit (n : N) : ascii :=
  match n with
  | 0 => "0" | 1 => "1" | 2 => "2" | 3 => "3" | 4 => "4" | 5 => "5"
  | 6 => "6" | 7 => "7" | 8 => "8" | 9 => "9" | 10 => "a" | 11 => "b"
  | 12 => "c" | 13 => "d" | 14 => "e" | _ => "f"
  end%N%char.

Definition hexOfByte (b : Byte.byte) : string :=
  String (hexDigit (Byte.to_N b / 16))
         (String (hexDigit (Byte.to_N b mod 16)) EmptyString).

(** [buffer.toString('hex')]. *)
Fixpoint toHex (bytes : list Byte.byte) : string :=
  match bytes with
  | [] => EmptyString
  | b :: rest => hexOfByte b ++ toHex rest
  end.

(** [Buffer.alloc(12)] filled by [fd.read(buffer, 0, 12, 0)]: the first
    12 bytes of the file, zeros where the file is shorter. *)
Definition readHeader (content : list Byte.byte) : list Byte.byte :=
  take 12 (content ++ replicate 12 Byte.x00).

(** [validateFileHeader]; [None] is a file that cannot be opened or
    read, which the [catch] answers with [false].  [headerValid] of
    [FileAnswers] is the answer of this function. *)
Definition validateFileHeader (file : option (list Byte.byte)) : bool :=
  match file with
  | None => false
  | Some content =>
      let header := toHex (readHeader content) in
      if JS.str_includes header "667479706d703432"
         || JS.str_includes header "667479706d703431" then true
      else if JS.str_includes header "52494646"
              && JS.str_includes header "41564920" then true
      else if JS.str_includes header "667479707174"
              || JS.str_includes header "6d6f6f76" then true
      else if JS.str_includes header "1a45dfa3" then true
      else false
  end.

End FileValidator.

(** ** [services/videoProcessor.ts] *)

Record ProcessingParameters : Type := {
  p_width : Q;
  p_height : Q;
  p_bitrate : Q;
  p_frameRate : Q;
  p_compressionRatio : Q;
  p_qualityScore : Q
}.

Module VideoProcessor.

Record t : Type := {
  memoryManager : MemoryManager.t;
  maxFileSize : Q;
  supportedFormats : list string
}.

Definition new (config : VideoProcessingConfig) : t :=
  {| memoryManager := MemoryManager.new (Types.memoryLimit config);
     maxFileSize :=
       JS.or (Some (Types.maxFileSize config)) (2 * 1024 * 1024 * 1024);
     supportedFormats := ["mp4"; "avi"; "mov"; "webm"; "mkv"]%string |}.

Definition validateInputFile (this : t) (fa : FileAnswers) (inputPath : string)
  : result unit :=
  if negb (FileValidator.fileExists fa) then throw (InputFileNotFound inputPath)
  else
    let! fileSize := FileValidator.getFileSize fa in
    if JS.gt fileSize (maxFileSize this)
    then throw (FileSizeExceeds fileSize (maxFileSize this))
    else
      let format := FileValidator.getFileFormat fa in
      if negb (JS.includes (supportedFormats this) format)
      then throw (UnsupportedVideoFormat format)
      else
        if negb (FileValidator.validateVideoFile fa) then throw InvalidOrCorrupted
        else ret tt.

Definition getVideoMetadata (fa : FileAnswers) : result VideoMetadata :=
  try_catch
    (let! size := FileValidator.getFileSize fa in
     ret {| duration := 120;
            width := 1920;
            height := 1080;
            frameRate := 30;
            bitrate := 5000000;
            codec := "h264";
            audioCodec := "aac";
            fileSize := size;
            format := FileValidator.getFileFormat fa;
            hasAudio := true;
            colorSpace := "yuv420p";
            aspectRatio := "16:9" |})
    (fun e => throw (FailedToExtractMetadata e)).

Definition validateProcessingOptions
    (this : t) (options : VideoProcessingOptions) (metadata : VideoMetadata)
  : result unit :=
  if negb (JS.includes (supportedFormats this) (outputFormat options))
  then throw (UnsupportedOutputFormat (outputFormat options))
  else if JS.present_and_gt (o_width options) (width metadata * 2)
  then throw WidthExceeds
  else if JS.present_and_gt (o_height options) (height metadata * 2)
  then throw HeightExceeds
  else if JS.present_and_gt (o_bitrate options) 50000000
  then throw BitrateExceeds
  else if JS.present_and_gt (o_frameRate options) 120
  then throw FrameRateExceeds
  else ret tt.

Definition calculateOptimalBitrate (width height : Q) (quality : string) : Q :=
  let pixelCount := width * height in
  let baseRate := pixelCount / 1000 in
  let qualityMultipliers := tier_table 0.5 1.0 1.5 2.0 in
  JS.floor (baseRate * JS.or (qualityMultipliers quality) 1.0).

Definition calculateCompressionRatio
    (quality : string) (outputBitrate inputBitrate : Q) : Q :=
  let baseRatio := outputBitrate / inputBitrate in
  let qualityAdjustments := tier_table 0.3 0.6 0.8 1.0 in
  baseRatio * JS.or (qualityAdjustments quality) 0.6.

Definition calculateQualityScore (quality : string) (compressionRatio : Q) : Q :=
  let baseScores := tier_table 60 75 85 95 in
  let baseScore := JS.or (baseScores quality) 75 in
  let compressionPenalty := Qmax 0 ((1 - compressionRatio) * 20) in
  Qmax 0 (Qmin 100 (baseScore - compressionPenalty)).

Definition calculateProcessingParameters
    (options : VideoProcessingOptions) (metadata : VideoMetadata)
  : ProcessingParameters :=
  let width := JS.or (o_width options) (width metadata) in
  let height := JS.or (o_height options) (height metadata) in
  let bitrate :=
    JS.or (o_bitrate options)
          (calculateOptimalBitrate width height (quality options)) in
  let frameRate := JS.or (o_frameRate options) (frameRate metadata) in
  let compressionRatio :=
    calculateCompressionRatio (quality options) bitrate (Types.bitrate metadata) in
  let qualityScore := calculateQualityScore (quality options) compressionRatio in
  {| p_width := width;
     p_height := height;
     p_bitrate := bitrate;
     p_frameRate := frameRate;
     p_compressionRatio := compressionRatio;
     p_qualityScore := qualityScore |}.

(** [executeVideoProcessing]; the simulated encoding only waits and
    logs, so nothing of it appears here. *)
Definition executeVideoProcessing
    (options : VideoProcessingOptions) (metadata : VideoMetadata)
  : VideoMetadata * Q * Q :=
  let processingParams := calculateProcessingParameters options metadata in
  let outputMetadata :=
    {| duration := duration metadata;
       width := p_width processingParams;
       height := p_height processingParams;
       frameRate := p_frameRate processingParams;
       bitrate := p_bitrate processingParams;
       codec := codec metadata;
       audioCodec := audioCodec metadata;
       fileSize := JS.floor (fileSize metadata * p_compressionRatio processingParams);
       format := outputFormat options;
       hasAudio := hasAudio metadata;
       colorSpace := colorSpace metadata;
       aspectRatio := aspectRatio metadata |} in
  (outputMetadata, p_compressionRatio processingParams, p_qualityScore processingParams).

(** The [try] block of [processVideo]: what it returns or throws, and
    the ledger it leaves behind. *)
Definition processVideo_try
    (this : t) (fa : FileAnswers) (inputPath : string)
    (options : VideoProcessingOptions)
  : result (VideoMetadata * Q * Q) * MemoryManager.t :=
  match validateInputFile this fa inputPath with
  | inl e => (inl e, memoryManager this)
  | inr _ =>
      match getVideoMetadata fa with
      | inl e => (inl e, memoryManager this)
      | inr metadata =>
          let (checked, ledger) :=
            MemoryManager.checkAvailableMemory
              (memoryManager this) (fileSize metadata) in
          match checked with
          | inl e => (inl e, ledger)
          | inr _ =>
              match validateProcessingOptions this options metadata with
              | inl e => (inl e, ledger)
              | inr _ => (inr (executeVideoProcessing options metadata), ledger)
              end
          end
      end
  end.

(** [processVideo]: the [try] block, the [catch] that turns an error
    into a failure result, and the [finally] that calls [cleanup].
    [processingTime] is a clock difference and is left out. *)
Definition processVideo
    (this : t) (fa : FileAnswers) (processingId inputPath outputPath : string)
    (options : VideoProcessingOptions)
  : ProcessingResult * t :=
  let (outcome, ledger) := processVideo_try this fa inputPath options in
  let result :=
    match outcome with
    | inr (metadata, compressionRatio, qualityScore) =>
        {| success := true;
           processingId := processingId;
           r_outputPath := Some outputPath;
           r_metadata := Some metadata;
           compressionRatio := Some compressionRatio;
           qualityScore := Some qualityScore;
           r_error := None |}
    | inl e =>
        {| success := false;
           processingId := processingId;
           r_outputPath := None;
           r_metadata := None;
           compressionRatio := None;
           qualityScore := None;
           r_error := Some e |}
    end in
  (result,
   {| memoryManager := MemoryManager.cleanup ledger;
      maxFileSize := maxFileSize this;
      supportedFormats := supportedFormats this |}).

(** [getProcessingStats]: three constants, the ledger's counter and the
    format list, as the entries of the object literal. *)
Inductive StatValue : Type :=
  | NumberValue (n : Q)
  | FormatsValue (formats : list string).

Definition getProcessingStats (this : t) : list (string * StatValue) :=
  [("totalProcessed", NumberValue 0);
   ("averageProcessingTime", NumberValue 0);
   ("successRate", NumberValue 100);
   ("memoryUsage",
    NumberValue (MemoryManager.getCurrentUsage (memoryManager this)));
   ("supportedFormats", FormatsValue (supportedFormats this))]%string.

End VideoProcessor.

(** ** [services/geminiVideoAnalyzer.ts] *)

(** What [JSON.parse] made of the first [{...}] of the reply text, with
    [parsed.a?.b] flattened to one optional field. *)
Record ParsedReply : Type := {
  pr_contentType : option string;
  pr_videoQuality : option Q;
  pr_audioQuality : option Q;
  pr_overallScore : option Q;
  pr_sceneCount : option Q;
  pr_motionLevel : option string;
  pr_complexityScore : option Q;
  pr_recommendations : option (list (string * string))
}.

(** The text of the first candidate, as [parseGeminiResponse] sees it. *)
Inductive ReplyText : Type :=
  | WithoutJson                       (* the regular expression finds no object *)
  | InvalidJson                       (* JSON.parse throws *)
  | JsonObject (parsed : ParsedReply).

(** Everything the remote call can do. *)
Inductive GeminiReply : Type :=
  | Rejected (cause : string)         (* fetch rejects: network error, timeout *)
  | NotOk (status : Z) (statusText : string)   (* response.ok is false *)
  | BodyUnparseable                   (* response.json() rejects *)
  | WithoutCandidates                 (* no data.candidates[0] *)
  | CandidateWithoutText              (* candidates[0].content.parts[0].text throws *)
  | CandidateText (text : ReplyText).

(** The call failed: anything but a candidate whose text holds JSON that
    parses. *)
Definition call_failed (reply : GeminiReply) : bool :=
  match reply with
  | CandidateText (JsonObject _) => false
  | _ => true
  end.

Record ContentAnalysis : Type := {
  ca_contentType : string;
  ca_qualityAssessment : QualityAssessment;
  sceneMetadata : SceneMetadata;
  rawRecommendations : list (string * string)
}.

Module GeminiVideoAnalyzer.

(** [extractKeyFrames]: a frame stands for its time stamp; the random
    suffix of the simulated frame data is left out. *)
Definition extractKeyFrames (metadata : VideoMetadata) : list Q :=
  let frameCount := Qmin 10 (JS.floor (duration metadata / 10)) in
  map (fun i : nat => (duration metadata / frameCount) * inject_Z (Z.of_nat i))
      (seq 0 (Z.to_nat (Qfloor frameCount))).

Definition estimateVideoQuality (metadata : VideoMetadata) : Q :=
  let score := 50 in
  let pixelCount := width metadata * height metadata in
  let score :=
    if JS.ge pixelCount (1920 * 1080) then score + 20
    else if JS.ge pixelCount (1280 * 720) then score + 10
    else score in
  let bitratePerPixel := bitrate metadata / pixelCount in
  let score :=
    if JS.gt bitratePerPixel 0.1 then score + 15
    else if JS.gt bitratePerPixel 0.05 then score + 10
    else if JS.gt bitratePerPixel 0.02 then score + 5
    else score in
  let score :=
    if JS.ge (frameRate metadata) 60 then score + 10
    else if JS.ge (frameRate metadata) 30 then score + 5
    else score in
  Qmin 100 (Qmax 0 score).

Definition generateFallbackAnalysis (metadata : VideoMetadata) : ContentAnalysis :=
  {| ca_contentType := "unknown";
     ca_qualityAssessment :=
       {| videoQuality := estimateVideoQuality metadata;
          audioQuality := if hasAudio metadata then 75 else 0;
          overallScore := 70 |};
     sceneMetadata :=
       {| scenes := Qmax 1 (JS.floor (duration metadata / 30));
          motionLevel := "medium";
          complexity := 50 |};
     rawRecommendations := [] |}.

Definition parseGeminiResponse (responseText : ReplyText) (metadata : VideoMetadata)
  : ContentAnalysis :=
  match
    try_catch
      (match responseText with
       | WithoutJson => throw NoJsonFound
       | InvalidJson => throw JsonSyntaxError
       | JsonObject parsed =>
           ret {| ca_contentType := JS.or_str (pr_contentType parsed) "unknown";
                  ca_qualityAssessment :=
                    {| videoQuality := JS.or (pr_videoQuality parsed) 75;
                       audioQuality := JS.or (pr_audioQuality parsed) 75;
                       overallScore := JS.or (pr_overallScore parsed) 75 |};
                  sceneMetadata :=
                    {| scenes := JS.or (pr_sceneCount parsed) 1;
                       motionLevel := JS.or_str (pr_motionLevel parsed) "medium";
                       complexity := JS.or (pr_complexityScore parsed) 50 |};
                  rawRecommendations :=
                    match pr_recommendations parsed with
                    | Some r => r
                    | None => []
                    end |}
       end)
      (fun _ => ret (generateFallbackAnalysis metadata))
  with
  | inr analysis => analysis
  | inl _ => generateFallbackAnalysis metadata
  end.

(** [analyzeContentWithGemini]: every throw of the [try] block lands in
    the [catch], which answers with the fallback analysis. *)
Definition analyzeContentWithGemini
    (reply : GeminiReply) (frames : list Q) (metadata : VideoMetadata)
  : result ContentAnalysis :=
  try_catch
    (match reply with
     | Rejected cause => throw (FetchRejected cause)
     | NotOk st text => throw (GeminiApiError st text)
     | BodyUnparseable => throw ResponseNotJson
     | WithoutCandidates => throw NoAnalysisResults
     | CandidateWithoutText => throw MalformedCandidate
     | CandidateText analysisText => ret (parseGeminiResponse analysisText metadata)
     end)
    (fun _ => ret (generateFallbackAnalysis metadata)).

Definition generateOptimizationRecommendations
    (analysis : ContentAnalysis) (metadata : VideoMetadata) : Recommendations :=
  let suggestedFormat :=
    if String.eqb (ca_contentType analysis) "web"
       || String.eqb (ca_contentType analysis) "streaming"
    then "webm" else "mp4" in
  let suggestedQuality :=
    if JS.gt (overallScore (ca_qualityAssessment analysis)) 85 then "high"
    else if JS.lt (overallScore (ca_qualityAssessment analysis)) 60 then "low"
    else "medium" in
  let recommendations :=
    (if String.eqb (motionLevel (sceneMetadata analysis)) "high"
     then ["Use higher bitrate for motion-heavy content";
           "Consider 60fps for smooth motion"]
     else [])
    ++ (if JS.gt (complexity (sceneMetadata analysis)) 70
        then ["Use advanced encoding settings for complex scenes";
              "Consider two-pass encoding for better quality"]
        else [])
    ++ (if JS.gt (fileSize metadata) (1024 * 1024 * 1024)
        then ["Apply compression to reduce file size";
              "Consider segmented encoding for large files"]
        else [])
    ++ (if JS.lt (videoQuality (ca_qualityAssessment analysis)) 70
        then ["Apply noise reduction filters";
              "Use sharpening filters to improve clarity"]
        else []) in
  {| suggestedFormat := suggestedFormat;
     suggestedQuality := suggestedQuality;
     optimizations := recommendations |}%string.

(** [analyzeVideo]: its own [catch] rethrows whatever reaches it. *)
Definition analyzeVideo (reply : GeminiReply) (metadata : VideoMetadata)
  : result GeminiAnalysisResult :=
  try_catch
    (let frames := extractKeyFrames metadata in
     let! contentAnalysis := analyzeContentWithGemini reply frames metadata in
     let recommendations :=
       generateOptimizationRecommendations contentAnalysis metadata in
     ret {| contentType := ca_contentType contentAnalysis;
            g_duration := duration metadata;
            qualityAssessment := ca_qualityAssessment contentAnalysis;
            recommendations := recommendations;
            g_metadata := sceneMetadata contentAnalysis |})
    (fun e => throw (VideoAnalysisFailed e)).

End GeminiVideoAnalyzer.

(** ** [services/videoProcessingService.ts] *)

(** One call of [this.emit(name, job)]: the event name and the job as it
    is at that moment. *)
Record Event : Type := {
  event_name : string;
  event_job : ProcessingJob
}.

Module VideoProcessingService.

Record t : Type := {
  processor : VideoProcessor.t;
  geminiAnalyzer : bool;            (* constructed with an API key *)
  jobs : gmap string ProcessingJob;
  config : VideoProcessingConfig;
  emitted : list Event              (* oldest first *)
}.

Definition new (config : VideoProcessingConfig) (geminiApiKey : option string) : t :=
  {| processor := VideoProcessor.new config;
     geminiAnalyzer := JS.truthy_str geminiApiKey;
     jobs := ∅;
     config := config;
     emitted := [] |}.

(** [this.jobs.set(jobId, job)]. *)
Definition setJob (this : t) (jobId : string) (job : ProcessingJob) : t :=
  {| processor := processor this;
     geminiAnalyzer := geminiAnalyzer this;
     jobs := <[jobId := job]> (jobs this);
     config := config this;
     emitted := emitted this |}.

(** An assignment to fields of the job object held under [jobId]. *)
Definition updateJob (this : t) (jobId : string)
    (f : ProcessingJob -> ProcessingJob) : t :=
  {| processor := processor this;
     geminiAnalyzer := geminiAnalyzer this;
     jobs := alter f jobId (jobs this);
     config := config this;
     emitted := emitted this |}.

(** [this.emit(name, job)] for the job object held under [jobId]. *)
Definition emit (this : t) (name : string) (jobId : string) : t :=
  {| processor := processor this;
     geminiAnalyzer := geminiAnalyzer this;
     jobs := jobs this;
     config := config this;
     emitted :=
       match jobs this !! jobId with
       | Some job => emitted this ++ [{| event_name := name; event_job := job |}]
       | None => emitted this
       end |}.

Definition setProcessor (this : t) (p : VideoProcessor.t) : t :=
  {| processor := p;
     geminiAnalyzer := geminiAnalyzer this;
     jobs := jobs this;
     config := config this;
     emitted := emitted this |}.

Definition withStatus (s : JobStatus) (job : ProcessingJob) : ProcessingJob :=
  {| job_id := job_id job; inputPath := inputPath job; outputPath := outputPath job;
     options := options job; status := s; progress := progress job;
     createdAt := createdAt job; startedAt := startedAt job;
     completedAt := completedAt job; error := error job |}.

Definition withProgress (p : Q) (job : ProcessingJob) : ProcessingJob :=
  {| job_id := job_id job; inputPath := inputPath job; outputPath := outputPath job;
     options := options job; status := status job; progress := p;
     createdAt := createdAt job; startedAt := startedAt job;
     completedAt := completedAt job; error := error job |}.

Definition withStartedAt (now : Z) (job : ProcessingJob) : ProcessingJob :=
  {| job_id := job_id job; inputPath := inputPath job; outputPath := outputPath job;
     options := options job; status := status job; progress := progress job;
     createdAt := createdAt job; startedAt := Some now;
     completedAt := completedAt job; error := error job |}.

Definition withCompletedAt (now : Z) (job : ProcessingJob) : ProcessingJob :=
  {| job_id := job_id job; inputPath := inputPath job; outputPath := outputPath job;
     options := options job; status := status job; progress := progress job;
     createdAt := createdAt job; startedAt := startedAt job;
     completedAt := Some now; error := error job |}.

Definition withError (e : option Error) (job : ProcessingJob) : ProcessingJob :=
  {| job_id := job_id job; inputPath := inputPath job; outputPath := outputPath job;
     options := options job; status := status job; progress := progress job;
     createdAt := createdAt job; startedAt := startedAt job;
     completedAt := completedAt job; error := e |}.

(** [enhanceOptionsWithAI]: [enhanced] is a copy ([{ ...originalOptions }]);
    the argument is the [recommendations] field of the analysis, [None]
    when the analysis has none. *)
Definition enhanceOptionsWithAI
    (originalOptions : VideoProcessingOptions)
    (analysis_recommendations : option Recommendations)
  : VideoProcessingOptions :=
  match analysis_recommendations with
  | Some r =>
      let format :=
        if negb (String.eqb (suggestedFormat r) "")
           && negb (String.eqb (suggestedFormat r) (outputFormat originalOptions))
        then suggestedFormat r else outputFormat originalOptions in
      let quality :=
        if negb (String.eqb (suggestedQuality r) "")
           && negb (String.eqb (suggestedQuality r) (quality originalOptions))
        then suggestedQuality r else quality originalOptions in
      {| outputFormat := format;
         quality := quality;
         o_width := o_width originalOptions;
         o_height := o_height originalOptions;
         o_bitrate := o_bitrate originalOptions;
         o_frameRate := o_frameRate originalOptions;
         o_codec := o_codec originalOptions;
         o_audioCodec := o_audioCodec originalOptions;
         removeAudio := removeAudio originalOptions;
         startTime := startTime originalOptions;
         endTime := endTime originalOptions |}
  | None => originalOptions
  end.

(** The start of [processVideo], up to [this.emit('jobStarted', job)]:
    the job is created as 'queued', stored, and set to 'processing'
    at once.  Nothing here reads [config.maxConcurrentJobs]. *)
Definition startJob
    (this : t) (jobId inputPath outputPath : string)
    (options : VideoProcessingOptions) (created started : Z) : t :=
  let job :=
    {| job_id := jobId; inputPath := inputPath; outputPath := outputPath;
       options := options; status := Queued; progress := 0;
       createdAt := created; startedAt := None; completedAt := None;
       error := None |} in
  let this := setJob this jobId job in
  let this := emit this "jobCreated" jobId in
  let this := updateJob this jobId (withStatus Processing) in
  let this := updateJob this jobId (withStartedAt started) in
  emit this "jobStarted" jobId.

(** [processVideo] up to its first suspension: [startJob], then the first
    progress report (10 when the analysis is going to run, 40 otherwise).
    The call then waits for the file system, and other calls of the
    service may run before it resumes. *)
Definition untilFirstAwait
    (this : t) (jobId inputPath outputPath : string)
    (options : VideoProcessingOptions) (useAIAnalysis : bool)
    (created started : Z) : t :=
  let this := startJob this jobId inputPath outputPath options created started in
  let this :=
    updateJob this jobId
      (withProgress (if useAIAnalysis && geminiAnalyzer this then 10 else 40)) in
  emit this "jobProgress" jobId.

(** Step 1 of [processVideo]: the options handed to the processor.  The
    inner [catch] only logs, so a throw leaves [enhancedOptions] at the
    original options and skips the progress report of 30. *)
Definition analysisStep
    (this : t) (jobId : string) (fa : FileAnswers) (reply : GeminiReply)
    (options : VideoProcessingOptions) (useAIAnalysis : bool)
  : VideoProcessingOptions * t :=
  if useAIAnalysis && geminiAnalyzer this then
    let this := updateJob this jobId (withProgress 10) in
    let this := emit this "jobProgress" jobId in
    match
      (let! metadata := VideoProcessor.getVideoMetadata fa in
       let! analysis := GeminiVideoAnalyzer.analyzeVideo reply metadata in
       ret (enhanceOptionsWithAI options (Some (recommendations analysis))))
    with
    | inr enhancedOptions =>
        let this := updateJob this jobId (withProgress 30) in
        (enhancedOptions, emit this "jobProgress" jobId)
    | inl _ => (options, this)
    end
  else (options, this).

(** Step 2 of [processVideo] and the bookkeeping of its result. *)
Definition processingStep
    (this : t) (jobId processingId inputPath outputPath : string)
    (fa : FileAnswers) (enhancedOptions : VideoProcessingOptions) (completed : Z)
  : ProcessingResult * t :=
  let this := updateJob this jobId (withProgress 40) in
  let this := emit this "jobProgress" jobId in
  let (result, p) :=
    VideoProcessor.processVideo
      (processor this) fa processingId inputPath outputPath enhancedOptions in
  let this := setProcessor this p in
  if success result then
    let this := updateJob this jobId (withStatus Completed) in
    let this := updateJob this jobId (withProgress 100) in
    let this := updateJob this jobId (withCompletedAt completed) in
    (result, emit this "jobCompleted" jobId)
  else
    let this := updateJob this jobId (withStatus Failed) in
    let this := updateJob this jobId (withError (r_error result)) in
    let this := updateJob this jobId (withCompletedAt completed) in
    (result, emit this "jobFailed" jobId).

(** [processVideo] run from start to end without another call in
    between.  No step of the [try] block throws in this embedding, so
    the outer [catch] has no counterpart. *)
Definition processVideo
    (this : t) (jobId processingId inputPath outputPath : string)
    (fa : FileAnswers) (reply : GeminiReply)
    (options : VideoProcessingOptions) (useAIAnalysis : bool)
    (created started completed : Z)
  : ProcessingResult * t :=
  let this := startJob this jobId inputPath outputPath options created started in
  let (enhancedOptions, this) :=
    analysisStep this jobId fa reply options useAIAnalysis in
  processingStep this jobId processingId inputPath outputPath fa
                 enhancedOptions completed.

Definition getJob (this : t) (jobId : string) : option ProcessingJob :=
  jobs this !! jobId.

Definition cancelJob (this : t) (jobId : string) (now : Z) : bool * t :=
  match jobs this !! jobId with
  | Some job =>
      if negb (is_processing (status job)) then (false, this)
      else
        let this := updateJob this jobId (withStatus Failed) in
        let this := updateJob this jobId (withError (Some CancelledByUser)) in
        let this := updateJob this jobId (withCompletedAt now) in
        (true, emit this "jobCancelled" jobId)
  | None => (false, this)
  end.

(** [processingJobs] of [getProcessingStats]: the number of jobs whose
    status is 'processing'. *)
Definition processingJobs (this : t) : nat :=
  length (filter (fun job => is_processing (status job) = true)
                 (snd <$> map_to_list (jobs this))).

(** Step 2 of [processVideo] in the two stretches that the wait for the
    processor separates: the progress report before the call, and the
    bookkeeping of its result after it.  Other calls of the service may
    run in between. *)
Definition beforeProcessing (this : t) (jobId : string) : t :=
  let this := updateJob this jobId (withProgress 40) in
  emit this "jobProgress" jobId.

Definition afterProcessing
    (this : t) (jobId : string) (result : ProcessingResult)
    (p : VideoProcessor.t) (completed : Z) : ProcessingResult * t :=
  let this := setProcessor this p in
  if success result then
    let this := updateJob this jobId (withStatus Completed) in
    let this := updateJob this jobId (withProgress 100) in
    let this := updateJob this jobId (withCompletedAt completed) in
    (result, emit this "jobCompleted" jobId)
  else
    let this := updateJob this jobId (withStatus Failed) in
    let this := updateJob this jobId (withError (r_error result)) in
    let this := updateJob this jobId (withCompletedAt completed) in
    (result, emit this "jobFailed" jobId).

(** The jobs whose status passes a test, as
    [jobs.filter(j => j.status === ...)] selects them.  The order in which
    [getAllJobs] lists the jobs plays no part in what follows: only
    lengths and a sum of integers are taken. *)
Definition jobsWith (test : JobStatus -> bool) (this : t) : list ProcessingJob :=
  filter (fun job => test (status job) = true) (snd <$> map_to_list (jobs this)).

(** [job.completedAt!.getTime() - job.startedAt!.getTime()]; [None] is
    the TypeError of [undefined.getTime()]. *)
Definition jobDuration (job : ProcessingJob) : option Z :=
  match completedAt job, startedAt job with
  | Some c, Some s => Some (c - s)%Z
  | _, _ => None
  end.

(** The [reduce] over the completed jobs: the sum of their durations. *)
Fixpoint totalDuration (completed : list ProcessingJob) : option Z :=
  match completed with
  | [] => Some 0%Z
  | job :: rest =>
      match jobDuration job, totalDuration rest with
      | Some d, Some sum => Some (d + sum)%Z
      | _, _ => None
      end
  end.

(** [getProcessingStats]: the entries of the returned object literal in
    source order; [...processorStats] comes last.  [None] when a
    completed job lacks a time stamp. *)
Definition getProcessingStats (this : t)
  : option (list (string * VideoProcessor.StatValue)) :=
  let total := length (snd <$> map_to_list (jobs this)) in
  let completed := jobsWith is_completed this in
  let failed := jobsWith is_failed this in
  let processing := jobsWith is_processing this in
  match
    (if (0 <? length completed)%nat
     then match totalDuration completed with
          | Some sum => Some (inject_Z sum / inject_Z (Z.of_nat (length completed)))
          | None => None
          end
     else Some 0)
  with
  | None => None
  | Some avgProcessingTime =>
      let count (n : nat) := VideoProcessor.NumberValue (inject_Z (Z.of_nat n)) in
      Some
        ([("totalJobs", count total);
          ("completedJobs", count (length completed));
          ("failedJobs", count (length failed));
          ("processingJobs", count (length processing));
          ("successRate",
           VideoProcessor.NumberValue
             (if (0 <? total)%nat
              then inject_Z (Z.of_nat (length completed))
                   / inject_Z (Z.of_nat total) * 100
              else 0));
          ("averageProcessingTime", VideoProcessor.NumberValue avgProcessingTime)]%string
         ++ VideoProcessor.getProcessingStats (processor this))
  end.

(** A job [cleanupOldJobs] deletes: created before the cutoff and not
    'processing'. *)
Definition expired (cutoffTime : Z) (job : ProcessingJob) : bool :=
  (createdAt job <? cutoffTime)%Z && negb (is_processing (status job)).

(** [cleanupOldJobs]: the number of deleted jobs and the service without
    them.  [maxAge] defaults to 24 hours in the source. *)
Definition cleanupOldJobs (this : t) (now maxAge : Z) : nat * t :=
  let cutoffTime := (now - maxAge)%Z in
  let cleaned :=
    size (filter (fun entry => expired cutoffTime (snd entry) = true) (jobs this)) in
  (cleaned,
   {| processor := processor this;
      geminiAnalyzer := geminiAnalyzer this;
      jobs := filter (fun entry => expired cutoffTime (snd entry) = false) (jobs this);
      config := config this;
      emitted := emitted this |}).

(** What can happen next to the service: a caller submits, cancels or
    cleans up, or a call that was waiting goes on with its next stretch.
    [processVideo] is [Submit], [Analyse], [BeginProcessing] and
    [EndProcessing] in this order, with other actions in between when
    calls overlap. *)
Inductive Action : Type :=
  | Submit (jobId inputPath outputPath : string)
           (options : VideoProcessingOptions) (created started : Z)
  | Analyse (jobId : string) (fa : FileAnswers) (reply : GeminiReply)
            (options : VideoProcessingOptions) (useAIAnalysis : bool)
  | BeginProcessing (jobId : string)
  | EndProcessing (jobId processingId inputPath outputPath : string)
                  (fa : FileAnswers) (enhancedOptions : VideoProcessingOptions)
                  (completed : Z)
  | Cancel (jobId : string) (now : Z)
  | CleanupOldJobs (now maxAge : Z).

Definition perform (this : t) (a : Action) : t :=
  match a with
  | Submit jobId inputPath outputPath options created started =>
      startJob this jobId inputPath outputPath options created started
  | Analyse jobId fa reply options useAIAnalysis =>
      snd (analysisStep this jobId fa reply options useAIAnalysis)
  | BeginProcessing jobId => beforeProcessing this jobId
  | EndProcessing jobId processingId inputPath outputPath fa enhancedOptions completed =>
      let run := VideoProcessor.processVideo (processor this) fa processingId
                                             inputPath outputPath enhancedOptions in
      snd (afterProcessing this jobId (fst run) (snd run) completed)
  | Cancel jobId now => snd (cancelJob this jobId now)
  | CleanupOldJobs now maxAge => snd (cleanupOldJobs this now maxAge)
  end.

(** The actions of a list, oldest first. *)
Definition performAll (this : t) (actions : list Action) : t :=
  fold_left perform actions this.

End VideoProcessingService.

(** ** The parameter resolver as the specification words it *)

Module Spec.

Definition qualityMultiplier (q : Tier) : Q :=
  match q with Low => 0.5 | Medium => 1.0 | High => 1.5 | Ultra => 2.0 end.

Definition qualityAdjustment (q : Tier) : Q :=
  match q with Low => 0.3 | Medium => 0.6 | High => 0.8 | Ultra => 1.0 end.

Definition baseScore (q : Tier) : Q :=
  match q with Low => 60 | Medium => 75 | High => 85 | Ultra => 95 end.

Definition clamp (lo hi x : Q) : Q := Qmax lo (Qmin hi x).

Definition optimalBitrate (width height : Q) (q : Tier) : Q :=
  JS.floor ((width * height / 1000) * qualityMultiplier q).

(** [resolve] reads every option with [??]: a value that is present is
    taken, an explicit 0 included. *)
Definition resolve (q : Tier) (options : VideoProcessingOptions)
    (metadata : VideoMetadata) : ProcessingParameters :=
  let width := JS.nullish (o_width options) (width metadata) in
  let height := JS.nullish (o_height options) (height metadata) in
  let bitrate := JS.nullish (o_bitrate options) (optimalBitrate width height q) in
  let frameRate := JS.nullish (o_frameRate options) (frameRate metadata) in
  let compressionRatio := (bitrate / Types.bitrate metadata) * qualityAdjustment q in
  let qualityScore :=
    clamp 0 100 (baseScore q - Qmax 0 ((1 - compressionRatio) * 20)) in
  {| p_width := width;
     p_height := height;
     p_bitrate := bitrate;
     p_frameRate := frameRate;
     p_compressionRatio := compressionRatio;
     p_qualityScore := qualityScore |}.

(** An optional number as [||] sees it: 0 counts as absent. *)
Definition zero_as_absent (a : option Q) : option Q :=
  match a with
  | Some x => if Qeq_bool x 0 then None else Some x
  | None => None
  end.

(** The options with every explicit 0 among width, height, bitrate and
    frame rate removed. *)
Definition without_zeros (options : VideoProcessingOptions) : VideoProcessingOptions :=
  {| outputFormat := outputFormat options;
     quality := quality options;
     o_width := zero_as_absent (o_width options);
     o_height := zero_as_absent (o_height options);
     o_bitrate := zero_as_absent (o_bitrate options);
     o_frameRate := zero_as_absent (o_frameRate options);
     o_codec := o_codec options;
     o_audioCodec := o_audioCodec options;
     removeAudio := removeAudio options;
     startTime := startTime options;
     endTime := endTime options |}.

(** A value is requested above a bound. *)
Definition requested_above (a : option Q) (bound : Q) : Prop :=
  exists x, a = Some x /\ bound < x.

Definition enumeratedFormats : list string :=
  ["mp4"; "avi"; "mov"; "webm"; "mkv"]%string.

(** Equality on every field that [enhanceOptionsWithAI] must leave
    alone. *)
Definition same_but_format_and_quality (a b : VideoProcessingOptions) : Prop :=
  o_width a = o_width b /\ o_height a = o_height b
  /\ o_bitrate a = o_bitrate b /\ o_frameRate a = o_frameRate b
  /\ o_codec a = o_codec b /\ o_audioCodec a = o_audioCodec b
  /\ removeAudio a = removeAudio b
  /\ startTime a = startTime b /\ endTime a = endTime b.

End Spec.

(** ** Sample data *)

Module Sample.

(** The metadata [getVideoMetadata] reports, for a file of 100 MB. *)
Definition metadata : VideoMetadata :=
  {| duration := 120; width := 1920; height := 1080; frameRate := 30;
     bitrate := 5000000; codec := "h264"; audioCodec := "aac";
     fileSize := 100 * 1024 * 1024; format := "mp4"; hasAudio := true;
     colorSpace := "yuv420p"; aspectRatio := "16:9" |}.

Definition options (format quality : string) (w : option Q) : VideoProcessingOptions :=
  {| outputFormat := format; quality := quality;
     o_width := w; o_height := None; o_bitrate := None; o_frameRate := None;
     o_codec := None; o_audioCodec := None; removeAudio := None;
     startTime := None; endTime := None |}.

Definition config (limit : nat) : VideoProcessingConfig :=
  {| memoryLimit := 1024 * 1024 * 1024;
     Types.maxFileSize := 500 * 1024 * 1024;
     tempDirectory := "/tmp";
     maxConcurrentJobs := limit;
     enableGPUAcceleration := false |}.

(** A readable, well-formed mp4 file of 100 MB. *)
Definition goodFile : FileAnswers :=
  {| accessible := true; statSize := inr (100 * 1024 * 1024);
     extname := ".mp4"; headerValid := true |}.

(** A path at which there is no file. *)
Definition missingFile : FileAnswers :=
  {| accessible := false; statSize := inl "ENOENT"%string;
     extname := ".mp4"; headerValid := false |}.

End Sample.

(** * Properties *)

(** ** Numbers *)

Section Numbers.

Lemma gt_true (a b : Q) : JS.gt a b = true <-> b < a.
Proof.
  unfold JS.gt. rewrite negb_true_iff, <- not_true_iff_false, Qle_bool_iff.
  split; [apply Qnot_le_lt | apply Qlt_not_le].
Qed.

Lemma gt_false (a b : Q) : JS.gt a b = false <-> a <= b.
Proof.
  unfold JS.gt. rewrite negb_false_iff. apply Qle_bool_iff.
Qed.

Lemma includes_elem_of (xs : list string) (x : string) :
  JS.includes xs x = true <-> x ∈ xs.
Proof.
  unfold JS.includes. rewrite existsb_exists. split.
  - intros (y & Hin & Heq). apply String.eqb_eq in Heq. subst y.
    by apply list_elem_of_In.
  - intros Hin. exists x. split; [by apply list_elem_of_In | apply String.eqb_refl].
Qed.

Lemma present_and_gt_true (a : option Q) (bound : Q) :
  0 <= bound ->
  JS.present_and_gt a bound = true <-> Spec.requested_above a bound.
Proof.
  intros Hb. unfold JS.present_and_gt, Spec.requested_above.
  destruct a as [x|].
  - rewrite andb_true_iff, negb_true_iff, gt_true. split.
    + intros [_ Hlt]. eauto.
    + intros (y & [= <-] & Hlt). split; [|done].
      apply not_true_iff_false. rewrite Qeq_bool_iff. intros Heq.
      rewrite Heq in Hlt. lra.
  - split; [done | by intros (y & ? & _)].
Qed.

End Numbers.

(** ** The memory ledger *)

Section Ledger.

Import MemoryManager.


(** C8. Whatever the ledger and the amount: an amount above
    [memoryLimit - currentUsage] makes [checkAvailableMemory] throw an
    insufficient-memory error, an amount up to it makes the call return
    normally, and in both cases the ledger (counter and reservation
    map) is the one the call started from. *)
Theorem checkAvailableMemory_admission (ledger : MemoryManager.t) (amount : Q) :
  (memoryLimit ledger - currentUsage ledger < amount ->
     exists e, fst (checkAvailableMemory ledger amount) = inl e
               /\ is_InsufficientMemory e = true)
  /\ (amount <= memoryLimit ledger - currentUsage ledger ->
        fst (checkAvailableMemory ledger amount) = inr tt)
  /\ snd (checkAvailableMemory ledger amount) = ledger.
Proof.
  unfold checkAvailableMemory.
  destruct (JS.gt amount (memoryLimit ledger - currentUsage ledger)) eqn:Hgt;
    cbn [fst snd].
  - apply gt_true in Hgt. split; [|split].
    + intros _. eexists. split; reflexivity.
    + intros Hle. lra.
    + reflexivity.
  - apply gt_false in Hgt. split; [|split].
    + intros Hlt. lra.
    + intros _. reflexivity.
    + reflexivity.
Qed.

Lemma checkAvailableMemory_admission_witness :
  let ledger := reserveMemory (new 1000) "op1" 400 in
  (exists e, fst (checkAvailableMemory ledger 700) = inl e
             /\ is_InsufficientMemory e = true)
  /\ fst (checkAvailableMemory ledger 600) = inr tt
  /\ snd (checkAvailableMemory ledger 700) = ledger.
Proof.
  intros ledger.
  split; [|split].
  - apply (checkAvailableMemory_admission ledger 700). reflexivity.
  - apply (checkAvailableMemory_admission ledger 600). vm_compute. discriminate.
  - apply (checkAvailableMemory_admission ledger 700).
Defined.

End Ledger.

(** ** Option validation *)

Section Validation.

Import VideoProcessor.

Lemma supportedFormats_new (config : VideoProcessingConfig) :
  supportedFormats (new config) = Spec.enumeratedFormats.
Proof. reflexivity. Qed.

(** C7. For a source whose width and height are not negative,
    [validateProcessingOptions] throws exactly when the output format is
    outside {mp4, avi, mov, webm, mkv}, or a requested width (height)
    is strictly above twice the source width (height), or a requested
    bitrate is strictly above 50,000,000, or a requested frame rate is
    strictly above 120; it returns normally otherwise, and whatever it
    throws is an invalid-options error. *)
Theorem validateProcessingOptions_fails_iff
    (config : VideoProcessingConfig)
    (options : VideoProcessingOptions) (metadata : VideoMetadata) :
  0 <= width metadata ->
  0 <= height metadata ->
  (failed (validateProcessingOptions (new config) options metadata) = true
   <-> (outputFormat options ∉ Spec.enumeratedFormats
        \/ Spec.requested_above (o_width options) (2 * width metadata)
        \/ Spec.requested_above (o_height options) (2 * height metadata)
        \/ Spec.requested_above (o_bitrate options) 50000000
        \/ Spec.requested_above (o_frameRate options) 120))
  /\ (failed (validateProcessingOptions (new config) options metadata) = false
      <-> validateProcessingOptions (new config) options metadata = inr tt)
  /\ (forall e, validateProcessingOptions (new config) options metadata = inl e ->
                is_InvalidOptions e = true).
Proof.
  intros Hw Hh.
  assert (Hw2 : 0 <= width metadata * 2) by lra.
  assert (Hh2 : 0 <= height metadata * 2) by lra.
  assert (Hfmt := includes_elem_of Spec.enumeratedFormats (outputFormat options)).
  assert (HW := present_and_gt_true (o_width options) _ Hw2).
  assert (HH := present_and_gt_true (o_height options) _ Hh2).
  assert (HB := present_and_gt_true (o_bitrate options) 50000000 ltac:(lra)).
  assert (HF := present_and_gt_true (o_frameRate options) 120 ltac:(lra)).
  assert (HW' : Spec.requested_above (o_width options) (width metadata * 2)
                <-> Spec.requested_above (o_width options) (2 * width metadata)).
  { unfold Spec.requested_above.
    split; intros (x & ? & ?); exists x; (split; [done | lra]). }
  assert (HH' : Spec.requested_above (o_height options) (height metadata * 2)
                <-> Spec.requested_above (o_height options) (2 * height metadata)).
  { unfold Spec.requested_above.
    split; intros (x & ? & ?); exists x; (split; [done | lra]). }
  unfold validateProcessingOptions. rewrite supportedFormats_new.
  destruct (JS.includes Spec.enumeratedFormats (outputFormat options)) eqn:E0;
    cbn [negb].
  2:{ cbn. repeat split; try done.
      - intros _. left. intros Hin. apply Hfmt in Hin. congruence.
      - intros e [= <-]. reflexivity. }
  assert (Hin : outputFormat options ∈ Spec.enumeratedFormats) by by apply Hfmt.
  destruct (JS.present_and_gt (o_width options) _) eqn:E1.
  { cbn. repeat split; try done.
    - intros _. right; left. apply HW', HW. reflexivity.
    - intros e [= <-]. reflexivity. }
  destruct (JS.present_and_gt (o_height options) _) eqn:E2.
  { cbn. repeat split; try done.
    - intros _. right; right; left. apply HH', HH. reflexivity.
    - intros e [= <-]. reflexivity. }
  destruct (JS.present_and_gt (o_bitrate options) _) eqn:E3.
  { cbn. repeat split; try done.
    - intros _. do 3 right; left. apply HB. reflexivity.
    - intros e [= <-]. reflexivity. }
  destruct (JS.present_and_gt (o_frameRate options) _) eqn:E4.
  { cbn. repeat split; try done.
    - intros _. do 4 right. apply HF. reflexivity.
    - intros e [= <-]. reflexivity. }
  cbn. repeat split; try done.
  intros [Hno | [Hr | [Hr | [Hr | Hr]]]].
  - done.
  - apply HW', HW in Hr. congruence.
  - apply HH', HH in Hr. congruence.
  - apply HB in Hr. congruence.
  - apply HF in Hr. congruence.
Qed.

End Validation.

Section ValidationWitness.

Import VideoProcessor.

Lemma validateProcessingOptions_fails_iff_witness :
  let options := Sample.options "mp4" "medium" (Some 5000) in
  failed (validateProcessingOptions (new (Sample.config 2)) options Sample.metadata)
    = true
  <-> (outputFormat options ∉ Spec.enumeratedFormats
       \/ Spec.requested_above (o_width options) (2 * width Sample.metadata)
       \/ Spec.requested_above (o_height options) (2 * height Sample.metadata)
       \/ Spec.requested_above (o_bitrate options) 50000000
       \/ Spec.requested_above (o_frameRate options) 120).
Proof.
  intros options.
  apply (validateProcessingOptions_fails_iff
           (Sample.config 2) options Sample.metadata);
    vm_compute; discriminate.
Defined.

End ValidationWitness.

(** ** The parameter resolver *)

Section Resolver.

Import VideoProcessor.

(** The scenario of the specification: source 1920x1080 at 5,000,000
    bps, quality medium, nothing else requested. *)
Example resolver_scenario :
  let p := calculateProcessingParameters
             (Sample.options "mp4" "medium" None) Sample.metadata in
  p_bitrate p == 2073
  /\ p_compressionRatio p == 2073 / 5000000 * 0.6
  /\ p_qualityScore p == 75 - (1 - 2073 / 5000000 * 0.6) * 20
  /\ 55 < p_qualityScore p < 55.01.
Proof. vm_compute. repeat split; congruence. Qed.

(** Decide the tests [x == 0] on literals that [||] leaves in a goal. *)
Ltac eval_zero_tests :=
  repeat match goal with
         | |- context [Qeq_bool ?a ?b] =>
             let v := eval vm_compute in (Qeq_bool a b) in
             change (Qeq_bool a b) with v
         end;
  cbv iota.

Lemma tier_table_name (lo me hi ul : Q) (q : Tier) :
  tier_table lo me hi ul (tier_name q)
  = Some (match q with Low => lo | Medium => me | High => hi | Ultra => ul end).
Proof. by destruct q. Qed.

Lemma or_zero_as_absent (a : option Q) (b : Q) :
  JS.or a b = JS.nullish (Spec.zero_as_absent a) b.
Proof.
  destruct a as [x|]; [|done]. cbn. by destruct (Qeq_bool x 0).
Qed.

(** C6, as the code has it. For options whose quality is one of the
    four tiers, the resolver returns exactly the record of the
    specification's formulas (width, height and frame rate from the
    option or else the source; bitrate from the option or else
    floor((width*height/1000) * m[quality]); compressionRatio =
    (bitrate / source bitrate) * a[quality]; qualityScore =
    clamp(0, 100, b[quality] - max(0, (1 - compressionRatio) * 20)))
    where an option value is taken when it is present and not 0: an
    explicit 0 counts as absent. *)
Theorem calculateProcessingParameters_formulas
    (q : Tier) (options : VideoProcessingOptions) (metadata : VideoMetadata) :
  quality options = tier_name q ->
  calculateProcessingParameters options metadata
  = Spec.resolve q (Spec.without_zeros options) metadata.
Proof.
  intros Hq.
  unfold calculateProcessingParameters, Spec.resolve, Spec.without_zeros,
    calculateOptimalBitrate, calculateCompressionRatio, calculateQualityScore,
    Spec.optimalBitrate, Spec.clamp.
  cbn [o_width o_height o_bitrate o_frameRate Types.quality].
  rewrite Hq, !tier_table_name, <- !or_zero_as_absent.
  by destruct q.
Qed.

Lemma calculateProcessingParameters_formulas_witness :
  calculateProcessingParameters (Sample.options "mp4" "high" (Some 1280)) Sample.metadata
  = Spec.resolve High
      (Spec.without_zeros (Sample.options "mp4" "high" (Some 1280))) Sample.metadata.
Proof.
  apply (calculateProcessingParameters_formulas
           High (Sample.options "mp4" "high" (Some 1280)) Sample.metadata).
  reflexivity.
Defined.

(** C6, as the claim words it, fails: with an explicit width of 0 the
    resolver answers the source width 1920, where [??] would answer
    0. *)
Lemma calculateProcessingParameters_explicit_zero :
  let options := Sample.options "mp4" "medium" (Some 0) in
  quality options = tier_name Medium
  /\ p_width (calculateProcessingParameters options Sample.metadata) = 1920
  /\ p_width (Spec.resolve Medium options Sample.metadata) = 0
  /\ ~ p_width (calculateProcessingParameters options Sample.metadata)
       == p_width (Spec.resolve Medium options Sample.metadata).
Proof. repeat split. vm_compute. discriminate. Qed.

(** C9. For one and the same compression ratio, the quality score does
    not decrease from a tier to a higher one, in the order
    low, medium, high, ultra. *)
Theorem calculateQualityScore_monotone (q1 q2 : Tier) (compressionRatio : Q) :
  tier_le q1 q2 ->
  calculateQualityScore (tier_name q1) compressionRatio
  <= calculateQualityScore (tier_name q2) compressionRatio.
Proof.
  intros Hle. unfold calculateQualityScore.
  rewrite !tier_table_name.
  set (penalty := Qmax 0 ((1 - compressionRatio) * 20)).
  apply Q.max_le_compat_l, Q.min_le_compat_l.
  unfold tier_le in Hle.
  destruct q1, q2; cbn in Hle |- *; try lia; eval_zero_tests; lra.
Qed.

Lemma calculateQualityScore_monotone_witness :
  calculateQualityScore (tier_name Low) 0.5
  <= calculateQualityScore (tier_name High) 0.5.
Proof.
  apply (calculateQualityScore_monotone Low High 0.5).
  unfold tier_le. cbn. lia.
Defined.

End Resolver.

(** ** The enrichment adapter *)

Section Enrichment.

Import GeminiVideoAnalyzer.

(** The catch of [analyzeContentWithGemini] absorbs every failure of
    the call. *)
Lemma analyzeContentWithGemini_failed
    (reply : GeminiReply) (frames : list Q) (metadata : VideoMetadata) :
  call_failed reply = true ->
  analyzeContentWithGemini reply frames metadata
  = inr (generateFallbackAnalysis metadata).
Proof.
  destruct reply as [| | | | |text]; try reflexivity.
  destruct text; [reflexivity | reflexivity | discriminate].
Qed.

(** The call never throws, failed or not. *)
Lemma analyzeContentWithGemini_total
    (reply : GeminiReply) (frames : list Q) (metadata : VideoMetadata) :
  exists analysis, analyzeContentWithGemini reply frames metadata = inr analysis.
Proof. destruct reply; cbn; eauto. Qed.

Lemma analyzeVideo_total (reply : GeminiReply) (metadata : VideoMetadata) :
  exists analysis,
    analyzeContentWithGemini reply (extractKeyFrames metadata) metadata = inr analysis
    /\ analyzeVideo reply metadata
       = inr {| contentType := ca_contentType analysis;
                g_duration := duration metadata;
                qualityAssessment := ca_qualityAssessment analysis;
                recommendations :=
                  generateOptimizationRecommendations analysis metadata;
                g_metadata := sceneMetadata analysis |}.
Proof.
  destruct (analyzeContentWithGemini_total reply (extractKeyFrames metadata) metadata)
    as [analysis Ha].
  exists analysis. split; [done|].
  unfold analyzeVideo. by rewrite Ha.
Qed.

(** C4. Whenever the remote call fails (fetch rejects, the status is
    not OK, the body or the candidate text does not parse, there is no
    candidate), [analyzeVideo] does not throw: it returns the result
    built from the fallback analysis, which depends on the metadata
    only, with scenes = max(1, floor(duration/30)) and motion level
    'medium'. *)
Theorem analyzeVideo_fallback (reply : GeminiReply) (metadata : VideoMetadata) :
  call_failed reply = true ->
  exists result,
    analyzeVideo reply metadata = inr result
    /\ result
       = {| contentType := "unknown";
            g_duration := duration metadata;
            qualityAssessment :=
              {| videoQuality := estimateVideoQuality metadata;
                 audioQuality := if hasAudio metadata then 75 else 0;
                 overallScore := 70 |};
            recommendations :=
              generateOptimizationRecommendations
                (generateFallbackAnalysis metadata) metadata;
            g_metadata :=
              {| scenes := Qmax 1 (JS.floor (duration metadata / 30));
                 motionLevel := "medium";
                 complexity := 50 |} |}
    /\ scenes (g_metadata result) = Qmax 1 (JS.floor (duration metadata / 30))
    /\ motionLevel (g_metadata result) = "medium"%string.
Proof.
  intros Hfail.
  destruct (analyzeVideo_total reply metadata) as (analysis & Ha & Hv).
  rewrite analyzeContentWithGemini_failed in Ha by done.
  injection Ha as <-.
  eexists. split; [exact Hv|]. by cbn.
Qed.

Lemma analyzeVideo_fallback_witness :
  exists result,
    analyzeVideo (NotOk 503 "Service Unavailable") Sample.metadata = inr result
    /\ scenes (g_metadata result) == 4
    /\ motionLevel (g_metadata result) = "medium"%string.
Proof.
  destruct (analyzeVideo_fallback (NotOk 503 "Service Unavailable") Sample.metadata)
    as (result & Hr & _ & Hs & Hm); [reflexivity|].
  exists result. split; [exact Hr|]. split; [|exact Hm].
  rewrite Hs. vm_compute. reflexivity.
Defined.


End Enrichment.

(** ** The processor of the service across the steps of a run *)

Section ProcessorField.

Import VideoProcessingService.

Lemma processor_startJob
    (this : t) (jobId inputPath outputPath : string)
    (options : VideoProcessingOptions) (created started : Z) :
  processor (startJob this jobId inputPath outputPath options created started)
  = processor this.
Proof. reflexivity. Qed.

Lemma processor_analysisStep
    (this : t) (jobId : string) (fa : FileAnswers) (reply : GeminiReply)
    (options : VideoProcessingOptions) (useAIAnalysis : bool) :
  processor (snd (analysisStep this jobId fa reply options useAIAnalysis))
  = processor this.
Proof.
  unfold analysisStep.
  destruct (useAIAnalysis && geminiAnalyzer this); [|done].
  by destruct (bind _ _).
Qed.

Lemma processor_processingStep
    (this : t) (jobId processingId inputPath outputPath : string)
    (fa : FileAnswers) (enhancedOptions : VideoProcessingOptions) (completed : Z) :
  processor (snd (processingStep this jobId processingId inputPath outputPath
                                 fa enhancedOptions completed))
  = snd (VideoProcessor.processVideo
           (processor this) fa processingId inputPath outputPath enhancedOptions).
Proof.
  unfold processingStep. cbn [processor emit updateJob].
  destruct (VideoProcessor.processVideo _ _ _ _ _ _) as [result p].
  by destruct (success result).
Qed.

End ProcessorField.

(** ** Merging recommendations into the options *)

Section Merge.

Import VideoProcessingService.


Lemma enhanceOptionsWithAI_fields
    (options : VideoProcessingOptions) (r : option Recommendations) :
  Spec.same_but_format_and_quality (enhanceOptionsWithAI options r) options.
Proof. destruct r; by repeat split. Qed.







(** The options that leave the analysis step depend on the service
    only through its analyzer. *)
Lemma analysisStep_options_startJob
    (this : t) (jobId inputPath outputPath : string) (fa : FileAnswers)
    (reply : GeminiReply) (options : VideoProcessingOptions) (useAIAnalysis : bool)
    (created started : Z) :
  fst (analysisStep (startJob this jobId inputPath outputPath options created started)
                    jobId fa reply options useAIAnalysis)
  = fst (analysisStep this jobId fa reply options useAIAnalysis).
Proof.
  unfold analysisStep.
  change (geminiAnalyzer (startJob this jobId inputPath outputPath options
                                   created started))
    with (geminiAnalyzer this).
  destruct (useAIAnalysis && geminiAnalyzer this); [|done].
  by destruct (bind _ _).
Qed.

(** The result of a run of the service is the result of the processor
    on the options that leave the analysis step: these, merged or not,
    are what the processor is handed. *)
Lemma processVideo_hands_on
    (this : t) (jobId processingId inputPath outputPath : string)
    (fa : FileAnswers) (reply : GeminiReply)
    (options : VideoProcessingOptions) (useAIAnalysis : bool)
    (created started completed : Z) :
  fst (processVideo this jobId processingId inputPath outputPath fa reply options
                    useAIAnalysis created started completed)
  = fst (VideoProcessor.processVideo
           (processor this) fa processingId inputPath outputPath
           (fst (analysisStep this jobId fa reply options useAIAnalysis))).
Proof.
  unfold processVideo.
  rewrite <- (analysisStep_options_startJob this jobId inputPath outputPath fa reply
                                            options useAIAnalysis created started).
  pose proof (processor_analysisStep
                (startJob this jobId inputPath outputPath options created started)
                jobId fa reply options useAIAnalysis) as Hp.
  rewrite processor_startJob in Hp.
  destruct (analysisStep _ _ _ _ _ _) as [enhancedOptions this1].
  cbn [fst snd] in *.
  unfold processingStep. cbn [processor emit updateJob]. rewrite Hp.
  destruct (VideoProcessor.processVideo _ _ _ _ _ _) as [result p'].
  by destruct (success result).
Qed.


End Merge.

Section MergeExamples.

Import VideoProcessingService.



End MergeExamples.

(** ** The job map *)

Section Jobs.

Import VideoProcessingService.

Lemma jobs_emit (this : t) (name jobId : string) :
  jobs (emit this name jobId) = jobs this.
Proof. reflexivity. Qed.

Lemma jobs_updateJob (this : t) (jobId : string) (f : ProcessingJob -> ProcessingJob) :
  jobs (updateJob this jobId f) = alter f jobId (jobs this).
Proof. reflexivity. Qed.

Lemma is_processing_true (s : JobStatus) :
  is_processing s = true <-> s = Processing.
Proof. by destruct s. Qed.

(** No status is written 'cancelled'. *)
Lemma status_name_not_cancelled (s : JobStatus) :
  status_name s <> "cancelled"%string.
Proof. by destruct s. Qed.

(** C10. [cancelJob] answers true exactly when the id names a job whose
    status is 'processing'.  When it answers false (unknown id, job
    still 'queued', job already completed or failed) the service,
    job records and job map included, is left as it was; a queued job
    in particular is never cancelled. *)
Theorem cancelJob_only_processing (this : t) (jobId : string) (now : Z) :
  (fst (cancelJob this jobId now) = true
   <-> exists job, jobs this !! jobId = Some job /\ status job = Processing)
  /\ (fst (cancelJob this jobId now) = false -> snd (cancelJob this jobId now) = this)
  /\ (forall job, jobs this !! jobId = Some job -> status job = Queued ->
                  cancelJob this jobId now = (false, this)).
Proof.
  unfold cancelJob.
  destruct (jobs this !! jobId) as [job|] eqn:Hjob.
  - destruct (status job) eqn:Hstatus; cbn [is_processing negb fst snd].
    all: split; [split|split].
    all: try done.
    all: try (intros (job' & [= <-] & Hs); congruence).
    all: try (intros job' [= <-] Hs; congruence).
    intros _. by exists job.
  - cbn [fst snd]. split; [split|split]; try done.
    by intros (job & ? & _).
Qed.

Lemma cancelJob_only_processing_witness :
  let this :=
    setJob (new (Sample.config 2) None) "job_1"
      {| job_id := "job_1"; inputPath := "/in/a.mp4"; outputPath := "/out/a.mp4";
         options := Sample.options "mp4" "medium" None; status := Queued;
         progress := 0; createdAt := 1; startedAt := None; completedAt := None;
         error := None |} in
  cancelJob this "job_1" 5 = (false, this)
  /\ snd (cancelJob this "job_2" 5) = this.
Proof.
  intros this. split.
  - destruct (cancelJob_only_processing this "job_1" 5) as (_ & _ & Hqueued).
    eapply Hqueued; reflexivity.
  - destruct (cancelJob_only_processing this "job_2" 5) as (_ & Hfalse & _).
    apply Hfalse. reflexivity.
Defined.

(** C1, as the code has it. Cancelling a job whose status is
    'processing' succeeds and leaves the job with status 'failed',
    error 'Cancelled by user' and the completion time set; the event
    'jobCancelled' is emitted with that job.  The status has no value
    'cancelled'. *)
Theorem cancelJob_marks_failed
    (this : t) (jobId : string) (job : ProcessingJob) (now : Z) :
  jobs this !! jobId = Some job ->
  status job = Processing ->
  fst (cancelJob this jobId now) = true
  /\ exists job',
       jobs (snd (cancelJob this jobId now)) !! jobId = Some job'
       /\ status job' = Failed
       /\ status_name (status job') = "failed"%string
       /\ error job' = Some CancelledByUser
       /\ completedAt job' = Some now
       /\ emitted (snd (cancelJob this jobId now))
          = emitted this ++ [{| event_name := "jobCancelled"; event_job := job' |}].
Proof.
  intros Hjob Hstatus. unfold cancelJob. rewrite Hjob, Hstatus.
  cbn [is_processing negb fst snd]. split; [done|].
  eexists. split.
  - rewrite jobs_emit, !jobs_updateJob, !lookup_alter_eq, Hjob. reflexivity.
  - repeat split.
    unfold emit at 1. cbn [emitted].
    rewrite !jobs_updateJob, !lookup_alter_eq, Hjob. reflexivity.
Qed.

End Jobs.

Section JobExamples.

Import VideoProcessingService.

Lemma cancelJob_marks_failed_witness :
  let this :=
    startJob (new (Sample.config 2) None) "job_1" "/in/a.mp4" "/out/a.mp4"
             (Sample.options "mp4" "medium" None) 1 2 in
  fst (cancelJob this "job_1" 5) = true
  /\ exists job',
       jobs (snd (cancelJob this "job_1" 5)) !! "job_1"%string = Some job'
       /\ status job' = Failed
       /\ error job' = Some CancelledByUser.
Proof.
  intros this.
  destruct (cancelJob_marks_failed
              this "job_1"
              {| job_id := "job_1"; inputPath := "/in/a.mp4";
                 outputPath := "/out/a.mp4";
                 options := Sample.options "mp4" "medium" None;
                 status := Processing; progress := 0; createdAt := 1;
                 startedAt := Some 2%Z; completedAt := None; error := None |}
              5 eq_refl eq_refl)
    as (Hok & job' & Hjob & Hstatus & _ & Herror & _).
  split; [exact Hok|]. exists job'. by repeat split.
Defined.

(** C1, as the claim words it, fails: a job that is 'processing' is
    cancelled with success, and its status afterwards is the value
    'failed', not a value 'cancelled'. *)
Lemma cancelJob_status_is_failed :
  let this :=
    startJob (new (Sample.config 2) None) "job_1" "/in/a.mp4" "/out/a.mp4"
             (Sample.options "mp4" "medium" None) 1 2 in
  (status <$> jobs this !! "job_1"%string) = Some Processing
  /\ fst (cancelJob this "job_1" 5) = true
  /\ (status_name <$> (status <$> jobs (snd (cancelJob this "job_1" 5)) !! "job_1"%string))
     = Some "failed"%string
  /\ (status_name <$> (status <$> jobs (snd (cancelJob this "job_1" 5)) !! "job_1"%string))
     <> Some "cancelled"%string.
Proof. vm_compute. repeat split. discriminate. Qed.

End JobExamples.

(** ** Admission of jobs *)

Section Admission.

Import VideoProcessingService.

Lemma jobs_startJob
    (this : t) (jobId inputPath outputPath : string)
    (options : VideoProcessingOptions) (created started : Z) :
  jobs (startJob this jobId inputPath outputPath options created started)
  = <[jobId :=
        {| job_id := jobId; inputPath := inputPath; outputPath := outputPath;
           options := options; status := Processing; progress := 0;
           createdAt := created; startedAt := Some started; completedAt := None;
           error := None |}]> (jobs this).
Proof.
  unfold startJob.
  rewrite !jobs_emit, !jobs_updateJob, jobs_emit.
  unfold setJob; cbn [jobs].
  by rewrite !alter_insert_eq.
Qed.

Lemma processingJobs_insert_fresh
    (this this' : t) (jobId : string) (job : ProcessingJob) :
  jobs this !! jobId = None ->
  jobs this' = <[jobId := job]> (jobs this) ->
  status job = Processing ->
  processingJobs this' = S (processingJobs this).
Proof.
  intros Hfresh Hjobs Hstatus. unfold processingJobs.
  rewrite Hjobs, map_to_list_insert by done.
  rewrite fmap_cons, filter_cons_True; [done|].
  cbn [snd]. by rewrite Hstatus.
Qed.

Lemma jobs_untilFirstAwait
    (this : t) (jobId inputPath outputPath : string)
    (options : VideoProcessingOptions) (useAIAnalysis : bool) (created started : Z) :
  jobs (untilFirstAwait this jobId inputPath outputPath options useAIAnalysis
                        created started)
  = <[jobId :=
        {| job_id := jobId; inputPath := inputPath; outputPath := outputPath;
           options := options; status := Processing;
           progress := if useAIAnalysis && geminiAnalyzer this then 10 else 40;
           createdAt := created; startedAt := Some started; completedAt := None;
           error := None |}]> (jobs this).
Proof.
  unfold untilFirstAwait.
  rewrite jobs_emit, jobs_updateJob, jobs_startJob.
  by rewrite alter_insert_eq.
Qed.

(** C3, as the code has it. [maxConcurrentJobs] is configuration that
    the submission path never reads: a submission under an unused id
    has put its job in status 'processing' by the time the call first
    suspends, whatever the bound and however many jobs are processing
    already, and the number of processing jobs has gone up by one. *)
Theorem submission_enters_processing
    (this : t) (jobId inputPath outputPath : string)
    (options : VideoProcessingOptions) (useAIAnalysis : bool) (created started : Z) :
  jobs this !! jobId = None ->
  let this' :=
    untilFirstAwait this jobId inputPath outputPath options useAIAnalysis
                    created started in
  (status <$> jobs this' !! jobId) = Some Processing
  /\ processingJobs this' = S (processingJobs this)
  /\ config this' = config this.
Proof.
  intros Hfresh this'. subst this'. split; [|split].
  - by rewrite jobs_untilFirstAwait, lookup_insert_eq.
  - eapply processingJobs_insert_fresh; [done|apply jobs_untilFirstAwait|done].
  - reflexivity.
Qed.

Lemma submission_enters_processing_witness :
  let s0 := new (Sample.config 1) None in
  let s1 := untilFirstAwait s0 "job_1" "/in/a.mp4" "/out/a.mp4"
                            (Sample.options "mp4" "medium" None) false 1 2 in
  (status <$> jobs s1 !! "job_1"%string) = Some Processing
  /\ processingJobs s1 = S (processingJobs s0)
  /\ config s1 = config s0.
Proof.
  intros s0 s1.
  apply (submission_enters_processing
           s0 "job_1" "/in/a.mp4" "/out/a.mp4"
           (Sample.options "mp4" "medium" None) false 1 2).
  reflexivity.
Defined.

(** C3, as the claim words it, fails: with [maxConcurrentJobs] = 1, a
    second submission made while the first call is suspended is not kept
    'queued'; both jobs are 'processing' at the same time. *)
Lemma maxConcurrentJobs_not_enforced :
  let s0 := new (Sample.config 1) None in
  let s1 := untilFirstAwait s0 "job_1" "/in/a.mp4" "/out/a.mp4"
                            (Sample.options "mp4" "medium" None) false 1 2 in
  let s2 := untilFirstAwait s1 "job_2" "/in/b.mp4" "/out/b.mp4"
                            (Sample.options "mp4" "medium" None) false 3 4 in
  maxConcurrentJobs (config s2) = 1%nat
  /\ (status <$> jobs s2 !! "job_1"%string) = Some Processing
  /\ (status <$> jobs s2 !! "job_2"%string) = Some Processing
  /\ processingJobs s2 = 2%nat
  /\ ~ (processingJobs s2 <= maxConcurrentJobs (config s2))%nat.
Proof. vm_compute. repeat split. lia. Qed.

End Admission.

(** ** Release of memory at the end of a run *)

Section Release.

Import VideoProcessingService.



(** A call of [processVideo] that no other call overlaps is its four
    actions in a row. *)
Lemma processVideo_as_actions
    (this : t) (jobId processingId inputPath outputPath : string)
    (fa : FileAnswers) (reply : GeminiReply)
    (options : VideoProcessingOptions) (useAIAnalysis : bool)
    (created started completed : Z) :
  snd (processVideo this jobId processingId inputPath outputPath fa reply options
                    useAIAnalysis created started completed)
  = performAll this
      [Submit jobId inputPath outputPath options created started;
       Analyse jobId fa reply options useAIAnalysis;
       BeginProcessing jobId;
       EndProcessing jobId processingId inputPath outputPath fa
         (fst (analysisStep
                 (startJob this jobId inputPath outputPath options created started)
                 jobId fa reply options useAIAnalysis))
         completed].
Proof.
  unfold processVideo, performAll. cbn [fold_left perform].
  destruct (analysisStep _ _ _ _ _ _) as [enhancedOptions analysed]. cbn [fst snd].
  unfold processingStep, beforeProcessing, afterProcessing. cbv zeta.
  by destruct (VideoProcessor.processVideo _ _ _ _ _ _).
Qed.




(** Two jobs are submitted; the first ends while the second is still
    processing. *)
Example terminal_job_two_jobs :
  let actions :=
    [Submit "job_1" "/in/a.mp4" "/out/a.mp4" (Sample.options "mp4" "medium" None) 1 2;
     BeginProcessing "job_1";
     Submit "job_2" "/in/b.mp4" "/out/b.mp4" (Sample.options "mp4" "high" None) 3 4;
     BeginProcessing "job_2";
     EndProcessing "job_1" "proc_1" "/in/a.mp4" "/out/a.mp4" Sample.goodFile
                   (Sample.options "mp4" "medium" None) 9] in
  let this := performAll (new (Sample.config 2) None) actions in
  (status <$> jobs this !! "job_1"%string) = Some Completed
  /\ (status <$> jobs this !! "job_2"%string) = Some Processing
  /\ MemoryManager.currentUsage (VideoProcessor.memoryManager (processor this)) == 0
  /\ MemoryManager.reservedMemory (VideoProcessor.memoryManager (processor this)) = ∅.
Proof. vm_compute. repeat split. Qed.

End Release.


(** * Further properties of the code *)

(** ** The ledger: reserving and releasing *)

Section LedgerCalls.

Import MemoryManager.

Ltac byte_count z :=
  exists z; split; [vm_compute; reflexivity | vm_compute; split; discriminate].

Lemma Qeq_bool_false (a b : Q) : Qeq_bool a b = false <-> ~ a == b.
Proof. rewrite <- not_true_iff_false, Qeq_bool_iff. done. Qed.

Lemma totalReserved_insert (m : gmap string Q) (operationId : string) (amount : Q) :
  m !! operationId = None ->
  totalReserved (<[operationId := amount]> m) == amount + totalReserved m.
Proof.
  intros Hfresh. unfold totalReserved.
  apply (map_fold_insert Qeq (fun _ a acc => a + acc) 0 operationId amount m);
    [| |done].
  - intros _ z a b Hab. by rewrite Hab.
  - intros. lra.
Qed.

Lemma totalReserved_delete (m : gmap string Q) (operationId : string) (amount : Q) :
  m !! operationId = Some amount ->
  totalReserved m == amount + totalReserved (delete operationId m).
Proof.
  intros Hheld. unfold totalReserved.
  apply (map_fold_delete Qeq (fun _ a acc => a + acc) 0 operationId amount m);
    [| |done].
  - intros _ z a b Hab. by rewrite Hab.
  - intros. lra.
Qed.

(** Releasing what was just reserved under an unused id gives the ledger
    back: the same reservation map and limit, the same usage.  The
    amounts are byte counts, on which the counter is kept without
    rounding. *)
Theorem releaseMemory_reserveMemory
    (ledger : MemoryManager.t) (operationId : string) (amount : Q) :
  reservedMemory ledger !! operationId = None ->
  ~ amount == 0 ->
  JS.byteCount (currentUsage ledger) ->
  JS.byteCount amount ->
  JS.byteCount (currentUsage ledger + amount) ->
  let after := releaseMemory (reserveMemory ledger operationId amount) operationId in
  reservedMemory after = reservedMemory ledger
  /\ currentUsage after == currentUsage ledger
  /\ memoryLimit after = memoryLimit ledger.
Proof.
  intros Hfresh Hnz _ _ _ after. subst after.
  unfold releaseMemory, reserveMemory. cbn [reservedMemory currentUsage memoryLimit].
  rewrite lookup_insert_eq.
  apply Qeq_bool_false in Hnz. rewrite Hnz.
  cbn [reservedMemory currentUsage memoryLimit].
  split; [|split].
  - by rewrite delete_insert_eq, delete_id.
  - lra.
  - reflexivity.
Qed.

Lemma releaseMemory_reserveMemory_witness :
  let ledger := reserveMemory (new 1000) "op1" 400 in
  let after := releaseMemory (reserveMemory ledger "op2" 250) "op2" in
  reservedMemory after = reservedMemory ledger
  /\ currentUsage after == currentUsage ledger
  /\ memoryLimit after = memoryLimit ledger.
Proof.
  intros ledger.
  apply (releaseMemory_reserveMemory ledger "op2" 250).
  - reflexivity.
  - vm_compute. discriminate.
  - byte_count 400%Z.
  - byte_count 250%Z.
  - byte_count 650%Z.
Defined.

(** Releasing an id that holds no reservation changes nothing, and
    releasing the same id a second time changes nothing more. *)
Theorem releaseMemory_idempotent (ledger : MemoryManager.t) (operationId : string) :
  (reservedMemory ledger !! operationId = None ->
   releaseMemory ledger operationId = ledger)
  /\ releaseMemory (releaseMemory ledger operationId) operationId
     = releaseMemory ledger operationId.
Proof.
  assert (Hunknown : forall l : MemoryManager.t,
             reservedMemory l !! operationId = None -> releaseMemory l operationId = l).
  { intros l Hnone. unfold releaseMemory. by rewrite Hnone. }
  split; [apply Hunknown|].
  destruct (reservedMemory ledger !! operationId) as [amount|] eqn:Hheld;
    [destruct (Qeq_bool amount 0) eqn:Hzero|].
  - assert (Hsame : releaseMemory ledger operationId = ledger)
      by (unfold releaseMemory; by rewrite Hheld, Hzero).
    by rewrite !Hsame.
  - apply Hunknown. unfold releaseMemory. rewrite Hheld, Hzero.
    cbn [reservedMemory]. apply lookup_delete_eq.
  - by rewrite !(Hunknown ledger Hheld).
Qed.

Lemma releaseMemory_idempotent_witness :
  let ledger := reserveMemory (new 1000) "op1" 400 in
  releaseMemory ledger "op2" = ledger
  /\ releaseMemory (releaseMemory ledger "op1") "op1" = releaseMemory ledger "op1".
Proof.
  intros ledger. split.
  - apply (proj1 (releaseMemory_idempotent ledger "op2")). reflexivity.
  - apply (proj2 (releaseMemory_idempotent ledger "op1")).
Defined.

Lemma balanced_call (ledger : MemoryManager.t) (c : Call) :
  balanced ledger ->
  match c with
  | Reserve operationId _ => reservedMemory ledger !! operationId = None
  | _ => True
  end ->
  balanced (call ledger c).
Proof.
  unfold balanced. intros Hbal Hfresh.
  destruct c as [operationId amount|operationId|]; cbn [call].
  - unfold reserveMemory. cbn [currentUsage reservedMemory].
    rewrite totalReserved_insert by done. lra.
  - unfold releaseMemory.
    destruct (reservedMemory ledger !! operationId) as [amount|] eqn:Hheld; [|done].
    destruct (Qeq_bool amount 0); [done|].
    cbn [currentUsage reservedMemory].
    pose proof (totalReserved_delete _ _ _ Hheld). lra.
  - reflexivity.
Qed.

Lemma balanced_calls (cs : list Call) (ledger : MemoryManager.t) :
  balanced ledger -> fresh_ids ledger cs -> balanced (calls ledger cs).
Proof.
  revert ledger. induction cs as [|c cs IH]; intros ledger Hbal Hfresh; [done|].
  destruct Hfresh as [Hc Hrest].
  apply (IH (call ledger c)); [by apply balanced_call | done].
Qed.

(** Whatever reservations, releases and cleanups are made on a new
    ledger, as long as no reservation is made under an id that still
    holds one and the amounts and the counter stay byte counts, the
    counter equals the sum of the recorded reservations afterwards. *)
Theorem calls_balanced (limit : Q) (cs : list Call) :
  fresh_ids (new limit) cs ->
  byte_counts (new limit) cs ->
  currentUsage (calls (new limit) cs)
  == totalReserved (reservedMemory (calls (new limit) cs)).
Proof.
  intros Hfresh _. apply balanced_calls; [|done].
  unfold balanced, totalReserved. cbn. by rewrite map_fold_empty.
Qed.

Lemma calls_balanced_witness :
  let cs := [Reserve "op1" 100; Reserve "op2" 200; Release "op1";
             Reserve "op1" 50; Release "op3"] in
  currentUsage (calls (new 1000) cs)
  == totalReserved (reservedMemory (calls (new 1000) cs)).
Proof.
  intros cs. apply (calls_balanced 1000 cs).
  - cbn. repeat split; reflexivity.
  - cbn [byte_counts cs call].
    split; [split; [byte_count 100%Z | byte_count 100%Z]|].
    split; [split; [byte_count 200%Z | byte_count 300%Z]|].
    split; [exact I|].
    split; [split; [byte_count 50%Z | byte_count 250%Z]|].
    split; exact I.
Defined.

(** Reserving twice under one id loses the first amount: the map keeps
    the second amount only, the counter has both, and the release takes
    off the second alone.  The amounts are byte counts, on which the
    counter is kept without rounding. *)
Theorem reserveMemory_twice_leaks
    (ledger : MemoryManager.t) (operationId : string) (first second : Q) :
  ~ second == 0 ->
  JS.byteCount (currentUsage ledger) ->
  JS.byteCount first ->
  JS.byteCount second ->
  JS.byteCount (currentUsage ledger + first + second) ->
  let after :=
    releaseMemory
      (reserveMemory (reserveMemory ledger operationId first) operationId second)
      operationId in
  reservedMemory after !! operationId = None
  /\ currentUsage after == currentUsage ledger + first.
Proof.
  intros Hnz _ _ _ _ after. subst after.
  unfold releaseMemory, reserveMemory. cbn [reservedMemory currentUsage memoryLimit].
  rewrite lookup_insert_eq.
  apply Qeq_bool_false in Hnz. rewrite Hnz.
  cbn [reservedMemory currentUsage]. split.
  - apply lookup_delete_eq.
  - lra.
Qed.

Lemma reserveMemory_twice_leaks_witness :
  let after :=
    releaseMemory (reserveMemory (reserveMemory (new 1000) "op1" 100) "op1" 30) "op1" in
  reservedMemory after !! "op1"%string = None
  /\ currentUsage after == currentUsage (new 1000) + 100.
Proof.
  apply (reserveMemory_twice_leaks (new 1000) "op1" 100 30).
  - vm_compute. discriminate.
  - byte_count 0%Z.
  - byte_count 100%Z.
  - byte_count 30%Z.
  - byte_count 130%Z.
Defined.

(** An amount that [checkAvailableMemory] has let through can be
    reserved without the counter passing the limit.  Limit, counter and
    amount are byte counts, on which the difference of the check and
    the sum of the reservation are computed without rounding. *)
Theorem reserveMemory_after_check
    (ledger : MemoryManager.t) (operationId : string) (amount : Q) :
  JS.byteCount (memoryLimit ledger) ->
  JS.byteCount (currentUsage ledger) ->
  JS.byteCount amount ->
  fst (checkAvailableMemory ledger amount) = inr tt ->
  currentUsage (reserveMemory ledger operationId amount) <= memoryLimit ledger.
Proof.
  intros _ _ _. unfold checkAvailableMemory.
  destruct (JS.gt amount (memoryLimit ledger - currentUsage ledger)) eqn:Hgt;
    [discriminate|].
  intros _. apply gt_false in Hgt. cbn [reserveMemory currentUsage]. lra.
Qed.

Lemma reserveMemory_after_check_witness :
  currentUsage (reserveMemory (reserveMemory (new 1000) "op1" 400) "op2" 600)
  <= memoryLimit (reserveMemory (new 1000) "op1" 400).
Proof.
  apply (reserveMemory_after_check (reserveMemory (new 1000) "op1" 400) "op2" 600).
  - byte_count 1000%Z.
  - byte_count 400%Z.
  - byte_count 600%Z.
  - reflexivity.
Defined.

(** For a positive limit and a counter between 0 and the limit, the
    reported percentage lies between 0 and 100; the number of reserved
    operations is the number of entries of the reservation map. *)
Theorem getMemoryStats_bounds (ledger : MemoryManager.t) :
  0 < memoryLimit ledger ->
  0 <= currentUsage ledger <= memoryLimit ledger ->
  0 <= usagePercentage (getMemoryStats ledger) <= 100
  /\ reservedOperations (getMemoryStats ledger) = size (reservedMemory ledger).
Proof.
  intros Hlimit [Hlo Hhi]. cbn [getMemoryStats usagePercentage reservedOperations].
  split; [|done].
  unfold getUsagePercentage.
  assert (0 <= currentUsage ledger / memoryLimit ledger).
  { apply Qle_shift_div_l; [done | lra]. }
  assert (currentUsage ledger / memoryLimit ledger <= 1).
  { apply Qle_shift_div_r; [done | lra]. }
  lra.
Qed.

Lemma getMemoryStats_bounds_witness :
  let ledger := reserveMemory (reserveMemory (new 1024) "op1" 100) "op2" 200 in
  0 <= usagePercentage (getMemoryStats ledger) <= 100.
Proof.
  intros ledger.
  apply (getMemoryStats_bounds ledger); vm_compute; (split || idtac); congruence.
Defined.

End LedgerCalls.

(** ** The processor: input checks and the order of failures *)

Section ProcessorRuns.

Import VideoProcessor.

(** [validateInputFile] lets a file through exactly when it can be
    accessed, its size can be read, is not above [maxFileSize] and is
    not 0, its extension is a supported format and a video extension,
    and its header is recognised. *)
Theorem validateInputFile_accepts
    (p : VideoProcessor.t) (fa : FileAnswers) (inputPath : string) :
  validateInputFile p fa inputPath = inr tt
  <-> accessible fa = true
      /\ exists size,
           statSize fa = inr size
           /\ size <= maxFileSize p
           /\ ~ size == 0
           /\ FileValidator.getFileFormat fa ∈ supportedFormats p
           /\ extname fa ∈ FileValidator.supportedVideoExtensions
           /\ headerValid fa = true.
Proof.
  unfold validateInputFile, FileValidator.fileExists, FileValidator.getFileSize,
    FileValidator.validateVideoFile, FileValidator.isVideoFile,
    FileValidator.getFileSize.
  destruct (accessible fa); cbn [negb]; [|split; [done | by intros [? _]]].
  destruct (statSize fa) as [cause|size]; cbn [bind ret throw try_catch].
  { split; [done|]. by intros (_ & size & ? & _). }
  pose proof (includes_elem_of (supportedFormats p) (FileValidator.getFileFormat fa))
    as Hf.
  pose proof (includes_elem_of FileValidator.supportedVideoExtensions (extname fa))
    as He.
  destruct (JS.gt size (maxFileSize p)) eqn:Hgt.
  { apply gt_true in Hgt. split; [done|].
    intros (_ & size' & [= <-] & Hle & _). lra. }
  apply gt_false in Hgt.
  destruct (JS.includes (supportedFormats p) _) eqn:Hfmt; cbn [negb].
  2:{ split; [done|]. intros (_ & size' & _ & _ & _ & Hin & _).
      apply Hf in Hin. congruence. }
  destruct (JS.includes FileValidator.supportedVideoExtensions _) eqn:Hext;
    cbn [negb try_catch].
  2:{ split; [done|]. intros (_ & size' & _ & _ & _ & _ & Hin & _).
      apply He in Hin. congruence. }
  destruct (Qeq_bool size 0) eqn:Hzero; cbn [try_catch ret negb].
  { apply Qeq_bool_iff in Hzero. split; [done|].
    intros (_ & size' & [= <-] & _ & Hnz & _). done. }
  apply Qeq_bool_false in Hzero.
  destruct (headerValid fa).
  - split; [|done]. intros _. split; [done|]. exists size.
    repeat split; [done | done | by apply Hf | by apply He].
  - split; [done|]. intros (_ & size' & _ & _ & _ & _ & _ & ?). congruence.
Qed.

(** A file above [maxFileSize] makes the run fail with the size error,
    whatever the options, the format, the header and the ledger; no
    metadata is reported. *)
Theorem processVideo_too_large
    (p : VideoProcessor.t) (fa : FileAnswers)
    (processingId inputPath outputPath : string)
    (options : VideoProcessingOptions) (size : Q) :
  accessible fa = true ->
  statSize fa = inr size ->
  maxFileSize p < size ->
  let result := fst (processVideo p fa processingId inputPath outputPath options) in
  success result = false
  /\ r_error result = Some (FileSizeExceeds size (maxFileSize p))
  /\ r_metadata result = None.
Proof.
  intros Hacc Hstat Hlarge result. subst result.
  unfold processVideo, processVideo_try, validateInputFile,
    FileValidator.fileExists, FileValidator.getFileSize.
  rewrite Hacc, Hstat. cbn [negb bind ret].
  apply gt_true in Hlarge. rewrite Hlarge. by cbn.
Qed.

Lemma processVideo_too_large_witness :
  let fa := {| accessible := true; statSize := inr (2 * 1024 * 1024 * 1024);
               extname := ".mp4"; headerValid := true |} in
  let result :=
    fst (processVideo (new (Sample.config 2)) fa "proc_1" "/in/a.mp4" "/out/a.mp4"
                      (Sample.options "mp4" "medium" None)) in
  success result = false
  /\ r_error result
     = Some (FileSizeExceeds (2 * 1024 * 1024 * 1024) (maxFileSize (new (Sample.config 2))))
  /\ r_metadata result = None.
Proof.
  intros fa.
  apply (processVideo_too_large (new (Sample.config 2)) fa "proc_1" "/in/a.mp4"
                                "/out/a.mp4" (Sample.options "mp4" "medium" None)
                                (2 * 1024 * 1024 * 1024));
    reflexivity.
Defined.

(** A run succeeds exactly when the input file passes its checks, the
    metadata can be read, the file size fits in what the ledger has left
    and the options pass validation.  A successful result names the
    requested output path and reports metadata in the requested format;
    a result carries an error exactly when it is not successful. *)
Theorem processVideo_succeeds_iff
    (p : VideoProcessor.t) (fa : FileAnswers)
    (processingId inputPath outputPath : string)
    (options : VideoProcessingOptions) :
  let result := fst (processVideo p fa processingId inputPath outputPath options) in
  (success result = true
   <-> validateInputFile p fa inputPath = inr tt
       /\ exists metadata,
            getVideoMetadata fa = inr metadata
            /\ fileSize metadata
               <= MemoryManager.memoryLimit (memoryManager p)
                  - MemoryManager.currentUsage (memoryManager p)
            /\ validateProcessingOptions p options metadata = inr tt)
  /\ (success result = true ->
      r_outputPath result = Some outputPath
      /\ exists metadata,
           r_metadata result = Some metadata
           /\ format metadata = outputFormat options)
  /\ (success result = false <-> is_Some (r_error result)).
Proof.
  intros result. subst result.
  unfold processVideo, processVideo_try, MemoryManager.checkAvailableMemory.
  destruct (validateInputFile p fa inputPath) as [e|[]].
  { cbn. split; [|split]; [split; [done | by intros [? _]] | done |].
    split; [eauto | done]. }
  destruct (getVideoMetadata fa) as [e|metadata].
  { cbn. split; [|split]; [split; [done | by intros (_ & ? & ? & _)] | done |].
    split; [eauto | done]. }
  destruct (JS.gt (fileSize metadata) _) eqn:Hgt.
  { apply gt_true in Hgt. cbn. split; [|split]; [split; [done|] | done |].
    - intros (_ & md & [= <-] & Hle & _). lra.
    - split; [eauto | done]. }
  apply gt_false in Hgt. cbn [ret].
  destruct (validateProcessingOptions p options metadata) as [e|[]] eqn:Hv.
  { cbn. split; [|split]; [split; [done|] | done |].
    - intros (_ & md & [= <-] & _ & Hv'). congruence.
    - split; [eauto | done]. }
  cbn. split; [|split].
  - split; [|done]. intros _. split; [done|]. by exists metadata.
  - intros _. split; [done|]. eexists. split; [reflexivity|done].
  - split; [done | by intros [? ?]].
Qed.

(** The memory check comes before the validation of the options: when
    the input file passes and its size is above what the ledger has
    left, the run fails with the memory error, valid options or not. *)
Theorem processVideo_insufficient_memory
    (p : VideoProcessor.t) (fa : FileAnswers)
    (processingId inputPath outputPath : string)
    (options : VideoProcessingOptions) (metadata : VideoMetadata) :
  validateInputFile p fa inputPath = inr tt ->
  getVideoMetadata fa = inr metadata ->
  MemoryManager.memoryLimit (memoryManager p)
  - MemoryManager.currentUsage (memoryManager p) < fileSize metadata ->
  let result := fst (processVideo p fa processingId inputPath outputPath options) in
  success result = false
  /\ r_error result
     = Some (InsufficientMemory
               (fileSize metadata)
               (MemoryManager.memoryLimit (memoryManager p)
                - MemoryManager.currentUsage (memoryManager p))).
Proof.
  intros Hin Hmd Hlow result. subst result.
  unfold processVideo, processVideo_try, MemoryManager.checkAvailableMemory.
  rewrite Hin, Hmd. apply gt_true in Hlow. rewrite Hlow. by cbn.
Qed.

Lemma processVideo_insufficient_memory_witness :
  let p := {| memoryManager := MemoryManager.new (1024 * 1024 * 1024);
              maxFileSize := 4 * 1024 * 1024 * 1024;
              supportedFormats := Spec.enumeratedFormats |} in
  let fa := {| accessible := true; statSize := inr (2 * 1024 * 1024 * 1024);
               extname := ".mp4"; headerValid := true |} in
  let result :=
    fst (processVideo p fa "proc_1" "/in/a.mp4" "/out/a.flv"
                      (Sample.options "flv" "medium" None)) in
  success result = false
  /\ exists required available,
       r_error result = Some (InsufficientMemory required available).
Proof.
  intros p fa result.
  destruct (processVideo_insufficient_memory
              p fa "proc_1" "/in/a.mp4" "/out/a.flv"
              (Sample.options "flv" "medium" None)
              {| duration := 120; width := 1920; height := 1080; frameRate := 30;
                 bitrate := 5000000; codec := "h264"; audioCodec := "aac";
                 fileSize := 2 * 1024 * 1024 * 1024; format := "mp4";
                 hasAudio := true; colorSpace := "yuv420p"; aspectRatio := "16:9" |}
              eq_refl eq_refl eq_refl) as [Hfail Herr].
  split; [exact Hfail|]. eauto.
Defined.

End ProcessorRuns.

(** ** The resolver: bounds, fallbacks and monotonicity *)

Section ResolverBounds.

Import VideoProcessor.

Ltac eval_zero :=
  repeat match goal with
         | |- context [Qeq_bool ?a ?b] =>
             let v := eval vm_compute in (Qeq_bool a b) in
             change (Qeq_bool a b) with v
         end;
  cbv iota.

Ltac own_key :=
  let H := fresh in
  intros H; apply list_elem_of_In in H; cbn in H;
  repeat (destruct H as [H|H]; [discriminate H|]); exact H.

(** The quality score lies between 0 and 100, whatever the compression
    ratio, for every quality string that is not a property name
    inherited from [Object.prototype] (for those the table lookup gives
    a function or an object and the score is not a number). *)
Theorem calculateQualityScore_bounds (quality : string) (compressionRatio : Q) :
  quality ∉ JS.objectPrototypeKeys ->
  0 <= calculateQualityScore quality compressionRatio <= 100.
Proof.
  intros _. unfold calculateQualityScore. split.
  - apply Q.le_max_l.
  - apply Q.max_lub; [lra | apply Q.le_min_l].
Qed.

Lemma calculateQualityScore_bounds_witness :
  0 <= calculateQualityScore "best" 0.5 <= 100.
Proof.
  apply (calculateQualityScore_bounds "best" 0.5). own_key.
Defined.

(** For a quality string that is not a property name inherited from
    [Object.prototype], a higher compression ratio never lowers the
    score, and from ratio 1 on the score no longer changes. *)
Theorem calculateQualityScore_ratio (quality : string) (c1 c2 : Q) :
  quality ∉ JS.objectPrototypeKeys ->
  c1 <= c2 ->
  calculateQualityScore quality c1 <= calculateQualityScore quality c2
  /\ (1 <= c1 -> calculateQualityScore quality c1 == calculateQualityScore quality c2).
Proof.
  intros _ Hle. unfold calculateQualityScore.
  set (base := JS.or _ 75).
  assert (Hpen : Qmax 0 ((1 - c2) * 20) <= Qmax 0 ((1 - c1) * 20)).
  { apply Q.max_le_compat_l. lra. }
  split.
  - apply Q.max_le_compat_l, Q.min_le_compat_l. lra.
  - intros Hone.
    rewrite (Q.max_l 0 ((1 - c1) * 20)) by lra.
    rewrite (Q.max_l 0 ((1 - c2) * 20)) by lra.
    reflexivity.
Qed.

Lemma calculateQualityScore_ratio_witness :
  calculateQualityScore "high" 0.25 <= calculateQualityScore "high" 0.75.
Proof.
  apply (calculateQualityScore_ratio "high" 0.25 0.75).
  - own_key.
  - vm_compute. discriminate.
Defined.

Lemma tier_table_unknown (lo me hi ul : Q) (quality : string) :
  (forall q : Tier, quality <> tier_name q) ->
  tier_table lo me hi ul quality = None.
Proof.
  intros Hun. unfold tier_table.
  destruct (String.eqb_spec quality "low") as [->|_]; [by destruct (Hun Low)|].
  destruct (String.eqb_spec quality "medium") as [->|_]; [by destruct (Hun Medium)|].
  destruct (String.eqb_spec quality "high") as [->|_]; [by destruct (Hun High)|].
  destruct (String.eqb_spec quality "ultra") as [->|_]; [by destruct (Hun Ultra)|].
  reflexivity.
Qed.

(** A quality string that is none of the four tier names, and not a
    property name inherited from [Object.prototype], is resolved like
    'medium': same bitrate, same compression ratio, same score. *)
Theorem unknown_quality_is_medium
    (quality : string) (width height outputBitrate inputBitrate ratio : Q) :
  (forall q : Tier, quality <> tier_name q) ->
  quality ∉ JS.objectPrototypeKeys ->
  calculateOptimalBitrate width height quality
  = calculateOptimalBitrate width height "medium"
  /\ calculateCompressionRatio quality outputBitrate inputBitrate
     = calculateCompressionRatio "medium" outputBitrate inputBitrate
  /\ calculateQualityScore quality ratio = calculateQualityScore "medium" ratio.
Proof.
  intros Hun _.
  unfold calculateOptimalBitrate, calculateCompressionRatio, calculateQualityScore.
  rewrite !(tier_table_unknown _ _ _ _ quality Hun).
  repeat split; reflexivity.
Qed.

Lemma unknown_quality_is_medium_witness :
  calculateOptimalBitrate 1920 1080 "best" = calculateOptimalBitrate 1920 1080 "medium"
  /\ calculateCompressionRatio "best" 2073 5000000
     = calculateCompressionRatio "medium" 2073 5000000
  /\ calculateQualityScore "best" 0.5 = calculateQualityScore "medium" 0.5.
Proof.
  apply (unknown_quality_is_medium "best" 1920 1080 2073 5000000 0.5).
  - intros q. destruct q; discriminate.
  - own_key.
Defined.

(** The optimal bitrate does not decrease when the pixel count grows or
    the tier rises. *)
Theorem calculateOptimalBitrate_monotone
    (w1 h1 w2 h2 : Q) (q1 q2 : Tier) :
  0 <= w1 * h1 ->
  w1 * h1 <= w2 * h2 ->
  tier_le q1 q2 ->
  0 <= calculateOptimalBitrate w1 h1 (tier_name q1)
  /\ calculateOptimalBitrate w1 h1 (tier_name q1)
     <= calculateOptimalBitrate w2 h2 (tier_name q2).
Proof.
  intros Hpos Hpix Htier. unfold calculateOptimalBitrate, JS.floor.
  rewrite !tier_table_name.
  set (p1 := w1 * h1) in *. set (p2 := w2 * h2) in *. clearbody p1 p2.
  change (p1 / 1000) with (p1 * (1 # 1000)).
  change (p2 / 1000) with (p2 * (1 # 1000)).
  unfold tier_le in Htier. split.
  - change 0 with (inject_Z 0). rewrite <- Zle_Qle.
    change 0%Z with (Qfloor 0). apply Qfloor_resp_le.
    destruct q1; cbn [JS.or]; eval_zero; lra.
  - rewrite <- Zle_Qle. apply Qfloor_resp_le.
    destruct q1, q2; cbn in Htier; try lia; cbn [JS.or]; eval_zero; lra.
Qed.

Lemma calculateOptimalBitrate_monotone_witness :
  calculateOptimalBitrate 1280 720 (tier_name Medium)
  <= calculateOptimalBitrate 1920 1080 (tier_name High).
Proof.
  apply (calculateOptimalBitrate_monotone 1280 720 1920 1080 Medium High).
  - vm_compute. discriminate.
  - vm_compute. discriminate.
  - unfold tier_le. cbn. lia.
Defined.

Lemma present_and_gt_zero_as_absent (a : option Q) (bound : Q) :
  JS.present_and_gt (Spec.zero_as_absent a) bound = JS.present_and_gt a bound.
Proof.
  destruct a as [x|]; [|done]. cbn.
  destruct (Qeq_bool x 0) eqn:Hz; [done|]. cbn. by rewrite Hz.
Qed.

(** Validation never rejects an explicit 0: the options pass or fail
    exactly as they do with every 0 among width, height, bitrate and
    frame rate left out. *)
Theorem validateProcessingOptions_ignores_zeros
    (p : VideoProcessor.t) (options : VideoProcessingOptions) (metadata : VideoMetadata) :
  validateProcessingOptions p (Spec.without_zeros options) metadata
  = validateProcessingOptions p options metadata.
Proof.
  unfold validateProcessingOptions, Spec.without_zeros.
  cbn [outputFormat o_width o_height o_bitrate o_frameRate].
  by rewrite !present_and_gt_zero_as_absent.
Qed.

Lemma present_and_gt_false (a : option Q) (bound fallback : Q) :
  JS.present_and_gt a bound = false ->
  fallback <= bound ->
  JS.or a fallback <= bound.
Proof.
  unfold JS.present_and_gt, JS.or. destruct a as [x|]; [|done].
  destruct (Qeq_bool x 0); [done|]. cbn [negb andb].
  intros Hgt _. by apply gt_false.
Qed.

(** What validated options resolve to stays inside the validated
    bounds: for a source with width and height not negative, the
    resolved width and height are at most twice the source's, and the
    resolved frame rate is at most the larger of 120 and the source's. *)
Theorem resolved_within_validated_bounds
    (p : VideoProcessor.t) (options : VideoProcessingOptions) (metadata : VideoMetadata) :
  validateProcessingOptions p options metadata = inr tt ->
  0 <= width metadata ->
  0 <= height metadata ->
  let resolved := calculateProcessingParameters options metadata in
  p_width resolved <= 2 * width metadata
  /\ p_height resolved <= 2 * height metadata
  /\ p_frameRate resolved <= Qmax 120 (frameRate metadata).
Proof.
  intros Hvalid Hw Hh resolved. subst resolved.
  unfold validateProcessingOptions in Hvalid.
  destruct (negb _); [discriminate|].
  destruct (JS.present_and_gt (o_width options) _) eqn:E1; [discriminate|].
  destruct (JS.present_and_gt (o_height options) _) eqn:E2; [discriminate|].
  destruct (JS.present_and_gt (o_bitrate options) _) eqn:E3; [discriminate|].
  destruct (JS.present_and_gt (o_frameRate options) _) eqn:E4; [discriminate|].
  cbn [calculateProcessingParameters p_width p_height p_frameRate].
  split; [|split].
  - apply (present_and_gt_false _ _ (width metadata)) in E1; lra.
  - apply (present_and_gt_false _ _ (height metadata)) in E2; lra.
  - unfold JS.present_and_gt in E4. unfold JS.or.
    destruct (o_frameRate options) as [x|]; [|apply Q.le_max_r].
    destruct (Qeq_bool x 0); [apply Q.le_max_r|].
    cbn [negb andb] in E4. apply gt_false in E4.
    apply Qle_trans with 120; [exact E4 | apply Q.le_max_l].
Qed.

Lemma resolved_within_validated_bounds_witness :
  let resolved :=
    calculateProcessingParameters (Sample.options "mp4" "high" (Some 1280))
                                  Sample.metadata in
  p_width resolved <= 2 * width Sample.metadata
  /\ p_height resolved <= 2 * height Sample.metadata
  /\ p_frameRate resolved <= Qmax 120 (frameRate Sample.metadata).
Proof.
  apply (resolved_within_validated_bounds
           (new (Sample.config 2)) (Sample.options "mp4" "high" (Some 1280))
           Sample.metadata).
  - reflexivity.
  - vm_compute. discriminate.
  - vm_compute. discriminate.
Defined.

End ResolverBounds.

(** ** The analyzer: estimates, recommendations and frames *)

Section AnalyzerBounds.

Import GeminiVideoAnalyzer.

(** The estimated video quality lies between 50 and 95 for every
    metadata: the clamp to 0..100 around it never changes the value. *)
Theorem estimateVideoQuality_bounds (metadata : VideoMetadata) :
  50 <= estimateVideoQuality metadata <= 95.
Proof.
  unfold estimateVideoQuality.
  repeat match goal with
         | |- context [if ?c then _ else _] => destruct c
         end;
    (split;
     [ apply Q.min_glb; [lra | apply Qle_trans with (2 := Q.le_max_r _ _); lra]
     | apply Qle_trans with (1 := Q.le_min_r _ _); apply Q.max_lub; lra ]).
Qed.

(** Whatever the remote call does, [analyzeVideo] returns a result; its
    duration is the source's, the format it suggests is mp4 or webm, and
    the quality it suggests is low, medium or high, never ultra. *)
Theorem analyzeVideo_recommends (reply : GeminiReply) (metadata : VideoMetadata) :
  exists result,
    analyzeVideo reply metadata = inr result
    /\ g_duration result = duration metadata
    /\ suggestedFormat (recommendations result) ∈ ["mp4"; "webm"]%string
    /\ suggestedQuality (recommendations result) ∈ ["low"; "medium"; "high"]%string.
Proof.
  destruct (analyzeVideo_total reply metadata) as (analysis & _ & Hv).
  eexists. split; [exact Hv|]. cbn [g_duration recommendations]. split; [done|].
  unfold generateOptimizationRecommendations. cbn [suggestedFormat suggestedQuality].
  split.
  - destruct (_ || _); set_solver.
  - destruct (JS.gt _ 85); [set_solver|]. destruct (JS.lt _ 60); set_solver.
Qed.

(** The number of key frames is at most 10; a source shorter than 10
    seconds gives none, and one of 100 seconds or more gives 10. *)
Theorem extractKeyFrames_count (metadata : VideoMetadata) :
  (length (extractKeyFrames metadata) <= 10)%nat
  /\ (duration metadata < 10 -> extractKeyFrames metadata = [])
  /\ (100 <= duration metadata -> length (extractKeyFrames metadata) = 10%nat).
Proof.
  unfold extractKeyFrames. rewrite length_map, length_seq.
  set (count := Qmin 10 (JS.floor (duration metadata / 10))).
  assert (Hupper : (Qfloor count <= 10)%Z).
  { apply (Qfloor_resp_le count 10), Q.le_min_l. }
  split; [lia|]. split.
  - intros Hshort.
    assert (Hfloor : (Qfloor (duration metadata / 10) <= 0)%Z).
    { assert (Hlt : duration metadata / 10 < 1).
      { apply Qlt_shift_div_r; lra. }
      pose proof (Qfloor_le (duration metadata / 10)) as Hle.
      assert (Hq : inject_Z (Qfloor (duration metadata / 10)) < inject_Z 1)
        by (change (inject_Z 1) with 1; lra).
      rewrite <- Zlt_Qlt in Hq. lia. }
    assert (Hcount : (Qfloor count <= 0)%Z).
    { apply (Qfloor_resp_le count 0).
      apply Qle_trans with (1 := Q.le_min_r _ _).
      unfold JS.floor. change 0 with (inject_Z 0). by rewrite <- Zle_Qle. }
    replace (Z.to_nat (Qfloor count)) with 0%nat by lia. reflexivity.
  - intros Hlong.
    assert (Hfloor : (10 <= Qfloor (duration metadata / 10))%Z).
    { apply (Qfloor_resp_le 10 (duration metadata / 10)).
      apply Qle_shift_div_l; lra. }
    assert (Hcount : (10 <= Qfloor count)%Z).
    { apply (Qfloor_resp_le 10 count).
      apply Q.min_glb; [lra|].
      unfold JS.floor. change 10 with (inject_Z 10). by rewrite <- Zle_Qle. }
    lia.
Qed.

(** A reply whose overall score is missing or 0 is read as a score of
    75, so the quality suggested for it is 'medium'. *)
Theorem parseGeminiResponse_missing_score
    (parsed : ParsedReply) (metadata : VideoMetadata) :
  JS.truthy (pr_overallScore parsed) = false ->
  let analysis := parseGeminiResponse (JsonObject parsed) metadata in
  overallScore (ca_qualityAssessment analysis) = 75
  /\ suggestedQuality (generateOptimizationRecommendations analysis metadata)
     = "medium"%string.
Proof.
  intros Hfalsy analysis. subst analysis.
  assert (Hscore : JS.or (pr_overallScore parsed) 75 = 75).
  { unfold JS.truthy in Hfalsy. unfold JS.or.
    destruct (pr_overallScore parsed) as [x|]; [|done].
    apply negb_false_iff in Hfalsy. by rewrite Hfalsy. }
  cbn. by rewrite Hscore.
Qed.

Lemma parseGeminiResponse_missing_score_witness :
  let parsed :=
    {| pr_contentType := Some "web"%string; pr_videoQuality := Some 20;
       pr_audioQuality := Some 20; pr_overallScore := Some 0;
       pr_sceneCount := Some 3; pr_motionLevel := Some "low"%string;
       pr_complexityScore := Some 10; pr_recommendations := None |} in
  let analysis := parseGeminiResponse (JsonObject parsed) Sample.metadata in
  overallScore (ca_qualityAssessment analysis) = 75
  /\ suggestedQuality (generateOptimizationRecommendations analysis Sample.metadata)
     = "medium"%string.
Proof.
  intros parsed.
  apply (parseGeminiResponse_missing_score parsed Sample.metadata).
  reflexivity.
Defined.

End AnalyzerBounds.

(** ** The service: a run from submission to its end *)

Section ServiceRuns.

Import VideoProcessingService.

Lemma jobs_setProcessor (this : t) (p : VideoProcessor.t) :
  jobs (setProcessor this p) = jobs this.
Proof. reflexivity. Qed.

Ltac job_lookups :=
  repeat first
    [ rewrite jobs_emit
    | rewrite jobs_updateJob
    | rewrite jobs_setProcessor
    | rewrite jobs_startJob ].

(** A run of [processVideo] leaves its job in a final state: 'completed'
    with progress 100 when the processor reports success, 'failed' with
    progress 40 and the processor's error otherwise, with all three time
    stamps set.  The job keeps the options as requested, not as merged
    with the recommendations, and no other job is touched. *)
Theorem processVideo_job_record
    (this : t) (jobId processingId inputPath outputPath : string)
    (fa : FileAnswers) (reply : GeminiReply)
    (options : VideoProcessingOptions) (useAIAnalysis : bool)
    (created started completed : Z) :
  let run :=
    processVideo this jobId processingId inputPath outputPath fa reply options
                 useAIAnalysis created started completed in
  (exists job,
     jobs (snd run) !! jobId = Some job
     /\ status job = (if success (fst run) then Completed else Failed)
     /\ progress job = (if success (fst run) then 100 else 40)
     /\ error job = r_error (fst run)
     /\ createdAt job = created
     /\ startedAt job = Some started
     /\ completedAt job = Some completed
     /\ Types.options job = options)
  /\ (forall other, other <> jobId -> jobs (snd run) !! other = jobs this !! other).
Proof.
  intros run. subst run. unfold processVideo, analysisStep.
  set (started_this := startJob this jobId inputPath outputPath options created started).
  assert (Hsuccess : forall p fa' pid i o opts,
             success (fst (VideoProcessor.processVideo p fa' pid i o opts)) = true ->
             r_error (fst (VideoProcessor.processVideo p fa' pid i o opts)) = None).
  { intros p fa' pid i o opts.
    unfold VideoProcessor.processVideo.
    destruct (VideoProcessor.processVideo_try _ _ _ _) as [[e|[[md ratio] score]] l];
      by cbn. }
  destruct (useAIAnalysis && geminiAnalyzer started_this);
    [destruct (bind _ _) as [e|enhanced]|];
    unfold processingStep; cbn [processor updateJob emit];
    match goal with
    | |- context [VideoProcessor.processVideo ?p ?f ?pid ?i ?o ?opts] =>
        pose proof (Hsuccess p f pid i o opts) as Herr;
        destruct (VideoProcessor.processVideo p f pid i o opts) as [result p']
    end;
    cbn [fst snd] in *;
    destruct (success result) eqn:Hs; cbn [fst snd]; subst started_this;
    (split;
     [ eexists; split;
       [ job_lookups; rewrite !lookup_alter_eq, lookup_insert_eq; reflexivity
       | cbn; rewrite ?Herr by done; rewrite ?Hs; by repeat split ]
     | intros other Hother; job_lookups;
       by rewrite !lookup_alter_ne, lookup_insert_ne by done ]).
Qed.

Lemma emitted_updateJob (this : t) (jobId : string) (f : ProcessingJob -> ProcessingJob) :
  emitted (updateJob this jobId f) = emitted this.
Proof. reflexivity. Qed.

Lemma emitted_setProcessor (this : t) (p : VideoProcessor.t) :
  emitted (setProcessor this p) = emitted this.
Proof. reflexivity. Qed.

Lemma emitted_setJob (this : t) (jobId : string) (job : ProcessingJob) :
  emitted (setJob this jobId job) = emitted this.
Proof. reflexivity. Qed.

Lemma present_updateJob (this : t) (jobId : string) (f : ProcessingJob -> ProcessingJob) :
  is_Some (jobs this !! jobId) -> is_Some (jobs (updateJob this jobId f) !! jobId).
Proof. intros [job Hjob]. rewrite jobs_updateJob, lookup_alter_eq, Hjob. by eexists. Qed.

Lemma names_emit (this : t) (name jobId : string) :
  is_Some (jobs this !! jobId) ->
  event_name <$> emitted (emit this name jobId)
  = (event_name <$> emitted this) ++ [name].
Proof.
  intros [job Hjob]. unfold emit. cbn [emitted]. rewrite Hjob.
  by rewrite fmap_app.
Qed.

(** Report a progress value: the two statements that always go together. *)
Lemma names_progress (this : t) (jobId : string) (p : Q) :
  is_Some (jobs this !! jobId) ->
  event_name <$> emitted (emit (updateJob this jobId (withProgress p)) "jobProgress" jobId)
  = (event_name <$> emitted this) ++ ["jobProgress"%string]
  /\ is_Some (jobs (emit (updateJob this jobId (withProgress p)) "jobProgress" jobId)
               !! jobId).
Proof.
  intros Hjob. split.
  - by rewrite names_emit by by apply present_updateJob.
  - rewrite jobs_emit. by apply present_updateJob.
Qed.

Lemma startJob_events
    (this : t) (jobId inputPath outputPath : string)
    (options : VideoProcessingOptions) (created started : Z) :
  event_name <$> emitted (startJob this jobId inputPath outputPath options created started)
  = (event_name <$> emitted this) ++ ["jobCreated"; "jobStarted"]%string
  /\ is_Some (jobs (startJob this jobId inputPath outputPath options created started)
               !! jobId).
Proof.
  split.
  - unfold startJob.
    rewrite names_emit.
    2:{ do 2 apply present_updateJob. rewrite jobs_emit. cbn.
        rewrite lookup_insert_eq. by eexists. }
    rewrite !emitted_updateJob.
    rewrite names_emit by (cbn; rewrite lookup_insert_eq; by eexists).
    by rewrite emitted_setJob, <- app_assoc.
  - rewrite jobs_startJob, lookup_insert_eq. by eexists.
Qed.

Lemma analysisStep_events
    (this : t) (jobId : string) (fa : FileAnswers) (reply : GeminiReply)
    (options : VideoProcessingOptions) (useAIAnalysis : bool) :
  is_Some (jobs this !! jobId) ->
  exists k,
    (k <= 2)%nat
    /\ (useAIAnalysis = false -> k = 0%nat)
    /\ event_name <$> emitted (snd (analysisStep this jobId fa reply options useAIAnalysis))
       = (event_name <$> emitted this) ++ replicate k "jobProgress"%string
    /\ is_Some (jobs (snd (analysisStep this jobId fa reply options useAIAnalysis))
                 !! jobId).
Proof.
  intros Hjob. unfold analysisStep.
  destruct useAIAnalysis; cbn [andb].
  2:{ exists 0%nat. split; [lia|]. split; [done|].
      split; [cbn; by rewrite app_nil_r | done]. }
  destruct (geminiAnalyzer this).
  2:{ exists 0%nat. split; [lia|]. split; [done|].
      split; [cbn; by rewrite app_nil_r | done]. }
  destruct (names_progress this jobId 10 Hjob) as [Hn1 Hp1].
  destruct (bind _ _) as [e|enhanced]; cbn [snd].
  - exists 1%nat. split; [lia|]. split; [done|]. by split.
  - destruct (names_progress _ jobId 30 Hp1) as [Hn2 Hp2].
    exists 2%nat. split; [lia|]. split; [done|]. split; [|done].
    by rewrite Hn2, Hn1, <- app_assoc.
Qed.

Lemma processingStep_events
    (this : t) (jobId processingId inputPath outputPath : string)
    (fa : FileAnswers) (enhancedOptions : VideoProcessingOptions) (completed : Z) :
  is_Some (jobs this !! jobId) ->
  let run := processingStep this jobId processingId inputPath outputPath fa
                            enhancedOptions completed in
  event_name <$> emitted (snd run)
  = (event_name <$> emitted this)
    ++ ["jobProgress"; if success (fst run) then "jobCompleted" else "jobFailed"]%string.
Proof.
  intros Hjob run. subst run. unfold processingStep.
  destruct (names_progress this jobId 40 Hjob) as [Hn Hp].
  cbn [processor updateJob emit].
  destruct (VideoProcessor.processVideo _ _ _ _ _ _) as [result p'].
  change (processor (emit ?a _ _)) with (processor a) in *.
  destruct (success result) eqn:Hs; cbn [fst snd]; rewrite ?Hs.
  all: rewrite names_emit
    by (do 3 apply present_updateJob; rewrite jobs_setProcessor; exact Hp).
  all: rewrite !emitted_updateJob, emitted_setProcessor.
  all: by rewrite Hn, <- app_assoc.
Qed.

(** The events of a run come in one order: 'jobCreated', 'jobStarted',
    between one and three 'jobProgress' (exactly one without analysis),
    and last 'jobCompleted' or 'jobFailed' according to the result. *)
Theorem processVideo_events
    (this : t) (jobId processingId inputPath outputPath : string)
    (fa : FileAnswers) (reply : GeminiReply)
    (options : VideoProcessingOptions) (useAIAnalysis : bool)
    (created started completed : Z) :
  let run :=
    processVideo this jobId processingId inputPath outputPath fa reply options
                 useAIAnalysis created started completed in
  exists n,
    (1 <= n <= 3)%nat
    /\ (useAIAnalysis = false -> n = 1%nat)
    /\ event_name <$> emitted (snd run)
       = (event_name <$> emitted this)
         ++ ["jobCreated"; "jobStarted"]%string
         ++ replicate n "jobProgress"%string
         ++ [if success (fst run) then "jobCompleted" else "jobFailed"]%string.
Proof.
  intros run. subst run. unfold processVideo.
  destruct (startJob_events this jobId inputPath outputPath options created started)
    as [Hn0 Hp0].
  destruct (analysisStep_events _ jobId fa reply options useAIAnalysis Hp0)
    as (k & Hk & Hoff & Hn1 & Hp1).
  destruct (analysisStep _ _ _ _ _ _) as [enhanced this1]. cbn [snd] in Hn1, Hp1.
  rewrite (processingStep_events this1 jobId processingId inputPath outputPath fa
                                 enhanced completed Hp1).
  exists (S k). split; [lia|]. split; [intros Hu; by rewrite Hoff|].
  rewrite Hn1, Hn0, <- !app_assoc. do 2 f_equal.
  rewrite replicate_S_end, <- app_assoc. reflexivity.
Qed.

End ServiceRuns.

(** ** The service: cancellation and the analysis step *)

Section ServiceCancellation.

Import VideoProcessingService.

Lemma jobs_cancelJob_processing
    (this : t) (jobId : string) (job : ProcessingJob) (now : Z) :
  jobs this !! jobId = Some job ->
  status job = Processing ->
  fst (cancelJob this jobId now) = true
  /\ jobs (snd (cancelJob this jobId now))
     = alter (fun j => withCompletedAt now (withError (Some CancelledByUser)
                                                      (withStatus Failed j)))
             jobId (jobs this).
Proof.
  intros Hjob Hstatus. unfold cancelJob. rewrite Hjob, Hstatus.
  cbn [is_processing negb fst snd]. split; [done|].
  rewrite jobs_emit, !jobs_updateJob.
  apply map_eq. intros other.
  destruct (decide (other = jobId)) as [->|Hne].
  - by rewrite !lookup_alter_eq, Hjob.
  - by rewrite !lookup_alter_ne by done.
Qed.

(** [processingStep] is its two stretches, one after the other. *)
Lemma processingStep_stretches
    (this : t) (jobId processingId inputPath outputPath : string)
    (fa : FileAnswers) (enhancedOptions : VideoProcessingOptions) (completed : Z) :
  processingStep this jobId processingId inputPath outputPath fa enhancedOptions
                 completed
  = let started := beforeProcessing this jobId in
    let run := VideoProcessor.processVideo (processor started) fa processingId
                                           inputPath outputPath enhancedOptions in
    afterProcessing started jobId (fst run) (snd run) completed.
Proof.
  unfold processingStep, beforeProcessing, afterProcessing. cbv zeta.
  by destruct (VideoProcessor.processVideo _ _ _ _ _ _).
Qed.

(** Cancelling does not stop the run.  When a job is cancelled while
    the processor works on it, the end of the processing overwrites its
    status: 'completed' if the processor reports success, and then the
    error 'Cancelled by user' is still on the job; 'failed' with the
    processor's error otherwise. *)
Theorem afterProcessing_overwrites_cancellation
    (this : t) (jobId processingId inputPath outputPath : string)
    (job : ProcessingJob) (fa : FileAnswers)
    (enhancedOptions : VideoProcessingOptions) (now completed : Z) :
  jobs this !! jobId = Some job ->
  status job = Processing ->
  let started := beforeProcessing this jobId in
  let run := VideoProcessor.processVideo (processor started) fa processingId
                                         inputPath outputPath enhancedOptions in
  let cancelled := snd (cancelJob started jobId now) in
  let final := snd (afterProcessing cancelled jobId (fst run) (snd run) completed) in
  fst (cancelJob started jobId now) = true
  /\ exists job',
       jobs final !! jobId = Some job'
       /\ status job' = (if success (fst run) then Completed else Failed)
       /\ error job'
          = (if success (fst run) then Some CancelledByUser else r_error (fst run))
       /\ completedAt job' = Some completed.
Proof.
  intros Hjob Hstatus started run cancelled final.
  assert (Hstarted : jobs started !! jobId = Some (withProgress 40 job)).
  { subst started. unfold beforeProcessing.
    by rewrite jobs_emit, jobs_updateJob, lookup_alter_eq, Hjob. }
  destruct (jobs_cancelJob_processing started jobId _ now Hstarted Hstatus)
    as [Hok Hjobs].
  split; [exact Hok|].
  subst final cancelled. unfold afterProcessing.
  destruct (success (fst run)) eqn:Hs; cbn [fst snd].
  all: eexists; split;
    [ repeat first [ rewrite jobs_emit | rewrite jobs_updateJob
                   | rewrite jobs_setProcessor | rewrite lookup_alter_eq ];
      rewrite Hjobs, lookup_alter_eq, Hstarted; reflexivity
    | by cbn ].
Qed.

Lemma afterProcessing_overwrites_cancellation_witness :
  let this :=
    startJob (new (Sample.config 2) None) "job_1" "/in/a.mp4" "/out/a.mp4"
             (Sample.options "mp4" "medium" None) 1 2 in
  let started := beforeProcessing this "job_1" in
  let run := VideoProcessor.processVideo
               (processor started) Sample.goodFile "proc_1" "/in/a.mp4" "/out/a.mp4"
               (Sample.options "mp4" "medium" None) in
  let cancelled := snd (cancelJob started "job_1" 5) in
  let final := snd (afterProcessing cancelled "job_1" (fst run) (snd run) 9) in
  success (fst run) = true
  /\ exists job',
       jobs final !! "job_1"%string = Some job'
       /\ status job' = Completed
       /\ error job' = Some CancelledByUser.
Proof.
  intros this started run cancelled final.
  assert (Hs : success (fst run) = true) by (vm_compute; reflexivity).
  split; [exact Hs|].
  destruct (afterProcessing_overwrites_cancellation
              this "job_1" "proc_1" "/in/a.mp4" "/out/a.mp4"
              {| job_id := "job_1"; inputPath := "/in/a.mp4";
                 outputPath := "/out/a.mp4";
                 options := Sample.options "mp4" "medium" None;
                 status := Processing; progress := 0; createdAt := 1;
                 startedAt := Some 2%Z; completedAt := None; error := None |}
              Sample.goodFile (Sample.options "mp4" "medium" None) 5 9
              eq_refl eq_refl)
    as (_ & job' & Hjob & Hstatus & Herror & _).
  fold this in Hjob, Hstatus, Herror. fold started in Hjob, Hstatus, Herror.
  fold run in Hjob, Hstatus, Herror. fold cancelled in Hjob.
  fold final in Hjob.
  rewrite Hs in Hstatus, Herror.
  exists job'. by repeat split.
Defined.

(** A job can be cancelled once: after a successful cancellation a
    second one answers false.  No cancellation touches another job. *)
Theorem cancelJob_once
    (this : t) (jobId : string) (job : ProcessingJob) (now later : Z) :
  jobs this !! jobId = Some job ->
  status job = Processing ->
  fst (cancelJob this jobId now) = true
  /\ fst (cancelJob (snd (cancelJob this jobId now)) jobId later) = false
  /\ (forall other, other <> jobId ->
        jobs (snd (cancelJob this jobId now)) !! other = jobs this !! other).
Proof.
  intros Hjob Hstatus.
  destruct (jobs_cancelJob_processing this jobId job now Hjob Hstatus) as [Hok Hjobs].
  split; [exact Hok|]. split.
  - unfold cancelJob at 1. rewrite Hjobs, lookup_alter_eq, Hjob. by cbn.
  - intros other Hne. by rewrite Hjobs, lookup_alter_ne.
Qed.

Lemma cancelJob_once_witness :
  let this :=
    startJob (new (Sample.config 2) None) "job_1" "/in/a.mp4" "/out/a.mp4"
             (Sample.options "mp4" "medium" None) 1 2 in
  fst (cancelJob this "job_1" 5) = true
  /\ fst (cancelJob (snd (cancelJob this "job_1" 5)) "job_1" 6) = false.
Proof.
  intros this.
  destruct (cancelJob_once
              this "job_1"
              {| job_id := "job_1"; inputPath := "/in/a.mp4";
                 outputPath := "/out/a.mp4";
                 options := Sample.options "mp4" "medium" None;
                 status := Processing; progress := 0; createdAt := 1;
                 startedAt := Some 2%Z; completedAt := None; error := None |}
              5 6 eq_refl eq_refl) as (Hfirst & Hsecond & _).
  by split.
Defined.

Lemma enhanceOptionsWithAI_takes
    (options : VideoProcessingOptions) (r : Recommendations) :
  suggestedFormat r <> ""%string ->
  suggestedQuality r <> ""%string ->
  outputFormat (enhanceOptionsWithAI options (Some r)) = suggestedFormat r
  /\ quality (enhanceOptionsWithAI options (Some r)) = suggestedQuality r.
Proof.
  intros Hf Hq. unfold enhanceOptionsWithAI. cbn [outputFormat quality].
  destruct (String.eqb_spec (suggestedFormat r) ""); [done|].
  destruct (String.eqb_spec (suggestedQuality r) ""); [done|].
  destruct (String.eqb_spec (suggestedFormat r) (outputFormat options));
    destruct (String.eqb_spec (suggestedQuality r) (quality options));
    cbn [negb andb]; by split.
Qed.

(** A successful result reports metadata in the format of the options
    the processor was given. *)
Lemma processVideo_success_format
    (p : VideoProcessor.t) (fa : FileAnswers)
    (processingId inputPath outputPath : string)
    (options : VideoProcessingOptions) :
  success (fst (VideoProcessor.processVideo
                  p fa processingId inputPath outputPath options)) = true ->
  exists metadata,
    r_metadata (fst (VideoProcessor.processVideo
                       p fa processingId inputPath outputPath options))
    = Some metadata
    /\ format metadata = outputFormat options.
Proof.
  unfold VideoProcessor.processVideo, VideoProcessor.processVideo_try.
  destruct (VideoProcessor.validateInputFile p fa inputPath); [discriminate|].
  destruct (VideoProcessor.getVideoMetadata fa) as [|metadata]; [discriminate|].
  destruct (MemoryManager.checkAvailableMemory _ _) as [[|] ledger];
    [discriminate|].
  destruct (VideoProcessor.validateProcessingOptions p options metadata);
    [discriminate|].
  intros _. cbn. eexists. split; [reflexivity|done].
Qed.

(** When the remote call fails while the analysis is on and the
    metadata can be read, the processor is not handed the requested
    options: the result of the run is the processor's result on options
    whose format is mp4 and whose quality is medium, everything else
    being as requested; a successful run reports its output in format
    mp4, whatever format was requested. *)
Theorem failed_analysis_sets_mp4_medium
    (this : t) (jobId processingId inputPath outputPath : string)
    (fa : FileAnswers) (reply : GeminiReply)
    (options : VideoProcessingOptions) (metadata : VideoMetadata)
    (created started completed : Z) :
  geminiAnalyzer this = true ->
  VideoProcessor.getVideoMetadata fa = inr metadata ->
  call_failed reply = true ->
  let used := fst (analysisStep this jobId fa reply options true) in
  fst (processVideo this jobId processingId inputPath outputPath fa reply options
                    true created started completed)
  = fst (VideoProcessor.processVideo
           (processor this) fa processingId inputPath outputPath used)
  /\ outputFormat used = "mp4"%string
  /\ quality used = "medium"%string
  /\ Spec.same_but_format_and_quality used options
  /\ (success (fst (processVideo this jobId processingId inputPath outputPath fa
                                 reply options true created started completed))
      = true ->
      exists reported,
        r_metadata (fst (processVideo this jobId processingId inputPath outputPath
                                      fa reply options true created started
                                      completed))
        = Some reported
        /\ format reported = "mp4"%string).
Proof.
  intros Hanalyzer Hmd Hfailed used.
  assert (Hused : outputFormat used = "mp4"%string
                  /\ quality used = "medium"%string
                  /\ Spec.same_but_format_and_quality used options);
    [|destruct Hused as (Hf & Hq & Hs);
      split; [apply processVideo_hands_on|];
      split; [exact Hf|]; split; [exact Hq|]; split; [exact Hs|];
      rewrite processVideo_hands_on; fold used; intros Hok;
      destruct (processVideo_success_format _ _ _ _ _ _ Hok) as (md & Hmd' & Hfmt);
      exists md; split; [exact Hmd' | by rewrite Hfmt, Hf]].
  subst used.
  unfold analysisStep. rewrite Hanalyzer, Hmd. cbn [andb bind].
  destruct (analyzeVideo_total reply metadata) as (analysis & Ha & ->).
  rewrite analyzeContentWithGemini_failed in Ha by done.
  injection Ha as <-.
  cbn [bind ret fst recommendations].
  set (r := GeminiVideoAnalyzer.generateOptimizationRecommendations _ _).
  assert (Hformat : suggestedFormat r = "mp4"%string) by reflexivity.
  assert (Hquality : suggestedQuality r = "medium"%string) by reflexivity.
  destruct (enhanceOptionsWithAI_takes options r) as [-> ->];
    [by rewrite Hformat | by rewrite Hquality |].
  split; [done|]. split; [done|]. apply enhanceOptionsWithAI_fields.
Qed.

Lemma failed_analysis_sets_mp4_medium_witness :
  let this := new (Sample.config 2) (Some "key"%string) in
  let used :=
    fst (analysisStep this "job_1" Sample.goodFile (Rejected "timeout")
                      (Sample.options "webm" "ultra" None) true) in
  fst (processVideo this "job_1" "proc_1" "/in/a.mp4" "/out/a.webm"
                    Sample.goodFile (Rejected "timeout")
                    (Sample.options "webm" "ultra" None) true 1 2 3)
  = fst (VideoProcessor.processVideo
           (processor this) Sample.goodFile "proc_1" "/in/a.mp4" "/out/a.webm" used)
  /\ outputFormat used = "mp4"%string
  /\ quality used = "medium"%string.
Proof.
  intros this used.
  destruct (failed_analysis_sets_mp4_medium
              this "job_1" "proc_1" "/in/a.mp4" "/out/a.webm"
              Sample.goodFile (Rejected "timeout")
              (Sample.options "webm" "ultra" None) Sample.metadata 1 2 3
              eq_refl eq_refl eq_refl) as (Hrun & Hformat & Hquality & _ & _).
  by repeat split.
Defined.

End ServiceCancellation.

(** ** The service: statistics and the removal of old jobs *)

Section ServiceStatistics.

Import VideoProcessingService.

(** Replacing the record of one job changes the number of jobs that pass
    a status test by that job's own contribution. *)
Lemma jobsWith_alter
    (test : JobStatus -> bool) (this this' : t) (jobId : string)
    (job : ProcessingJob) (f : ProcessingJob -> ProcessingJob) :
  jobs this !! jobId = Some job ->
  jobs this' = alter f jobId (jobs this) ->
  (length (jobsWith test this') + (if test (status job) then 1 else 0)
   = length (jobsWith test this) + (if test (status (f job)) then 1 else 0))%nat.
Proof.
  intros Hjob Hjobs. unfold jobsWith. rewrite Hjobs.
  rewrite <- (insert_delete_id (jobs this) jobId job Hjob) at 2.
  rewrite <- (insert_delete_id (jobs this) jobId job Hjob) at 1.
  rewrite alter_insert_eq.
  rewrite !map_to_list_insert by apply lookup_delete_eq.
  rewrite !fmap_cons, !filter_cons. cbn [snd].
  destruct (test (status job)), (test (status (f job)));
    repeat case_decide; try done; cbn [length]; lia.
Qed.

(** A cancellation shows in the statistics as a failure: one job more
    counted as failed, one less as processing, the completed ones as
    before. *)
Theorem cancelJob_counts_as_failed
    (this : t) (jobId : string) (job : ProcessingJob) (now : Z) :
  jobs this !! jobId = Some job ->
  status job = Processing ->
  let this' := snd (cancelJob this jobId now) in
  length (jobsWith is_failed this') = S (length (jobsWith is_failed this))
  /\ S (length (jobsWith is_processing this')) = length (jobsWith is_processing this)
  /\ length (jobsWith is_completed this') = length (jobsWith is_completed this).
Proof.
  intros Hjob Hstatus this'. subst this'.
  destruct (jobs_cancelJob_processing this jobId job now Hjob Hstatus) as [_ Hjobs].
  pose proof (jobsWith_alter is_failed _ _ _ _ _ Hjob Hjobs) as Hf.
  pose proof (jobsWith_alter is_processing _ _ _ _ _ Hjob Hjobs) as Hp.
  pose proof (jobsWith_alter is_completed _ _ _ _ _ Hjob Hjobs) as Hc.
  rewrite Hstatus in Hf, Hp, Hc. cbn in Hf, Hp, Hc. lia.
Qed.

Lemma cancelJob_counts_as_failed_witness :
  let this :=
    startJob (new (Sample.config 2) None) "job_1" "/in/a.mp4" "/out/a.mp4"
             (Sample.options "mp4" "medium" None) 1 2 in
  let this' := snd (cancelJob this "job_1" 5) in
  length (jobsWith is_failed this') = S (length (jobsWith is_failed this))
  /\ S (length (jobsWith is_processing this')) = length (jobsWith is_processing this)
  /\ length (jobsWith is_completed this') = length (jobsWith is_completed this).
Proof.
  intros this.
  apply (cancelJob_counts_as_failed
           this "job_1"
           {| job_id := "job_1"; inputPath := "/in/a.mp4";
              outputPath := "/out/a.mp4";
              options := Sample.options "mp4" "medium" None;
              status := Processing; progress := 0; createdAt := 1;
              startedAt := Some 2%Z; completedAt := None; error := None |}
           5); reflexivity.
Defined.

(** The statistics report a success rate of 100 and an average
    processing time of 0 whatever the jobs are: the values computed from
    the jobs are overridden by the processor's constants, which the
    object literal spreads after them.  The counts are those of the job
    map, and the memory usage is the ledger's counter. *)
Theorem getProcessingStats_reports
    (this : t) (entries : list (string * VideoProcessor.StatValue)) :
  getProcessingStats this = Some entries ->
  JS.prop "successRate" entries = Some (VideoProcessor.NumberValue 100)
  /\ JS.prop "averageProcessingTime" entries = Some (VideoProcessor.NumberValue 0)
  /\ JS.prop "totalJobs" entries
     = Some (VideoProcessor.NumberValue (inject_Z (Z.of_nat (size (jobs this)))))
  /\ JS.prop "failedJobs" entries
     = Some (VideoProcessor.NumberValue
               (inject_Z (Z.of_nat (length (jobsWith is_failed this)))))
  /\ JS.prop "processingJobs" entries
     = Some (VideoProcessor.NumberValue (inject_Z (Z.of_nat (processingJobs this))))
  /\ JS.prop "memoryUsage" entries
     = Some (VideoProcessor.NumberValue
               (MemoryManager.currentUsage
                  (VideoProcessor.memoryManager (processor this)))).
Proof.
  unfold getProcessingStats. intros Hstats.
  destruct (if (0 <? _)%nat then _ else _) as [avg|]; [|discriminate].
  injection Hstats as <-.
  rewrite length_fmap, length_map_to_list.
  repeat split.
Qed.

Lemma getProcessingStats_reports_witness :
  let this :=
    snd (processVideo (new (Sample.config 2) None) "job_1" "proc_1"
                      "/in/a.mp4" "/out/a.mp4" Sample.missingFile (Rejected "")
                      (Sample.options "mp4" "medium" None) false 1 2 3) in
  exists entries,
    getProcessingStats this = Some entries
    /\ JS.prop "failedJobs" entries = Some (VideoProcessor.NumberValue 1)
    /\ JS.prop "totalJobs" entries = Some (VideoProcessor.NumberValue 1)
    /\ JS.prop "successRate" entries = Some (VideoProcessor.NumberValue 100).
Proof.
  intros this.
  destruct (getProcessingStats this) as [entries|] eqn:Hstats;
    [|vm_compute in Hstats; discriminate].
  exists entries. split; [reflexivity|].
  destruct (getProcessingStats_reports this entries Hstats)
    as (Hrate & _ & Htotal & Hfailed & _).
  split; [exact Hfailed|]. split; [exact Htotal | exact Hrate].
Defined.

Lemma expired_true (cutoffTime : Z) (job : ProcessingJob) :
  expired cutoffTime job = true
  <-> (createdAt job < cutoffTime)%Z /\ status job <> Processing.
Proof.
  unfold expired. rewrite andb_true_iff, Z.ltb_lt, negb_true_iff.
  rewrite <- not_true_iff_false, is_processing_true. done.
Qed.

(** [cleanupOldJobs] deletes exactly the jobs created before
    [now - maxAge] whose status is not 'processing' and leaves the
    others as they are; the number it returns is the number of deleted
    jobs; a job that is processing is never deleted, however old; and a
    second cleanup at the same time deletes nothing. *)
Theorem cleanupOldJobs_deletes (this : t) (now maxAge : Z) :
  let cleaned := fst (cleanupOldJobs this now maxAge) in
  let this' := snd (cleanupOldJobs this now maxAge) in
  (forall jobId job,
     jobs this' !! jobId = Some job
     <-> jobs this !! jobId = Some job
         /\ ~ ((createdAt job < now - maxAge)%Z /\ status job <> Processing))
  /\ size (jobs this) = (cleaned + size (jobs this'))%nat
  /\ (forall jobId job,
        jobs this !! jobId = Some job -> status job = Processing ->
        jobs this' !! jobId = Some job)
  /\ fst (cleanupOldJobs this' now maxAge) = 0%nat.
Proof.
  intros cleaned this'. subst cleaned this'. unfold cleanupOldJobs. cbn [fst snd jobs].
  set (cutoff := (now - maxAge)%Z).
  set (P := fun entry : string * ProcessingJob => expired cutoff (snd entry) = true).
  set (N := fun entry : string * ProcessingJob => expired cutoff (snd entry) = false).
  assert (Hkept : forall jobId job,
             filter N (jobs this) !! jobId = Some job
             <-> jobs this !! jobId = Some job
                 /\ ~ ((createdAt job < cutoff)%Z /\ status job <> Processing)).
  { intros jobId job. rewrite map_lookup_filter_Some. unfold N. cbn [snd].
    rewrite <- expired_true, not_true_iff_false. done. }
  assert (HN : filter N (jobs this) = filter (fun v => ~ P v) (jobs this)).
  { apply map_filter_ext. intros i x _. unfold N, P.
    by rewrite not_true_iff_false. }
  split; [exact Hkept|]. split; [|split].
  - rewrite <- (map_filter_union_complement P (jobs this)) at 1.
    rewrite map_size_disj_union by apply map_disjoint_filter_complement.
    by rewrite HN.
  - intros jobId job Hjob Hstatus. apply Hkept. split; [done|].
    intros [_ Hnot]. done.
  - apply map_size_empty_iff, map_empty_filter.
    intros jobId job Hjob. apply map_lookup_filter_Some in Hjob as [_ Hn].
    unfold N, P in *. cbn [snd] in *. congruence.
Qed.

End ServiceStatistics.

(** ** The header check of the file validator *)

Section FileHeader.

Import FileValidator.

Lemma str_includes_skip (c : ascii) (s sub : string) :
  JS.str_includes s sub = true -> JS.str_includes (String c s) sub = true.
Proof. intros Hs. cbn [JS.str_includes]. rewrite Hs. apply orb_true_r. Qed.

Lemma prefix_append (sub s : string) : String.prefix sub (sub +:+ s) = true.
Proof.
  induction sub as [|c sub IH]; [by destruct s|].
  simpl. destruct (ascii_dec c c) as [_|Hne]; [exact IH | by destruct Hne].
Qed.

Lemma str_includes_prefix (s sub : string) :
  String.prefix sub s = true -> JS.str_includes s sub = true.
Proof. intros Hp. destruct s; cbn [JS.str_includes]; by rewrite Hp. Qed.

(** The header check accepts every file whose bytes 4 to 11 spell
    'ftypmp42', every file that starts with 'RIFF', four bytes of any
    value and 'AVI ', and every file that starts with the EBML magic
    1a 45 df a3, however short it is after that.  It rejects a file
    that cannot be read and an empty file. *)
Theorem validateFileHeader_signatures :
  (forall (b0 b1 b2 b3 : Byte.byte) (rest : list Byte.byte),
     validateFileHeader
       (Some ([b0; b1; b2; b3]
              ++ [Byte.x66; Byte.x74; Byte.x79; Byte.x70;
                  Byte.x6d; Byte.x70; Byte.x34; Byte.x32] ++ rest)) = true)
  /\ (forall (s0 s1 s2 s3 : Byte.byte) (rest : list Byte.byte),
        validateFileHeader
          (Some ([Byte.x52; Byte.x49; Byte.x46; Byte.x46]
                 ++ [s0; s1; s2; s3]
                 ++ [Byte.x41; Byte.x56; Byte.x49; Byte.x20] ++ rest)) = true)
  /\ (forall rest : list Byte.byte,
        validateFileHeader
          (Some ([Byte.x1a; Byte.x45; Byte.xdf; Byte.xa3] ++ rest)) = true)
  /\ validateFileHeader None = false
  /\ validateFileHeader (Some []) = false.
Proof.
  split; [|split; [|split; [|split]]].
  - intros b0 b1 b2 b3 rest. unfold validateFileHeader, readHeader.
    cbn [app take toHex hexOfByte String.append].
    match goal with
    | |- (if ?c || _ then _ else _) = true =>
        assert (Hc : c = true) by (do 8 apply str_includes_skip; reflexivity);
        by rewrite Hc
    end.
  - intros s0 s1 s2 s3 rest. unfold validateFileHeader, readHeader.
    cbn [app take toHex hexOfByte String.append].
    destruct (_ || _); [done|].
    match goal with
    | |- (if ?r && ?a then _ else _) = true =>
        assert (Hr : r = true) by reflexivity;
        assert (Ha : a = true) by (do 16 apply str_includes_skip; reflexivity);
        by rewrite Hr, Ha
    end.
  - intros rest. unfold validateFileHeader, readHeader.
    cbn [app take toHex].
    match goal with
    | |- context [toHex (take 8 ?l)] => set (tail := toHex (take 8 l))
    end.
    change (hexOfByte Byte.x1a +:+ hexOfByte Byte.x45 +:+ hexOfByte Byte.xdf
            +:+ hexOfByte Byte.xa3 +:+ tail)
      with ("1a45dfa3" +:+ tail).
    rewrite (str_includes_prefix _ "1a45dfa3" (prefix_append "1a45dfa3" tail)).
    by repeat match goal with |- context [if ?c then _ else _] => destruct c end.
  - reflexivity.
  - reflexivity.
Qed.

End FileHeader.
